(** * simpleserver: configuration and lifecycle of a small HTTP(S) server

    Shallow embedding of [src/server.go] (the revision with TLS support,
    lines 137-285 of the file: [package simpleserver] with the [CertFile]
    and [KeyFile] fields) and proofs about its option builders, its
    constructor and its lifecycle methods.

    The package's own code is embedded function by function.  What it calls
    in the Go runtime and in [net/http], [context], [os/signal] and
    [github.com/rs/cors] is modelled in the modules [time], [cors], [http]
    and in the machine of the second half of the file, at the granularity
    the package observes. *)

From stdpp Require Import base strings list pretty.
From Stdlib Require Import ZArith Lia.

Local Open Scope Z_scope.

(** ** Collaborators: plain data *)

(** [time.Duration] is an [int64] count of nanoseconds.  The package only
    stores durations and multiplies the constant [time.Second] by 15 and 60,
    so no wrap-around can occur and the count is kept as a [Z]. *)
Module time.
Definition Duration := Z.
Definition Nanosecond : Duration := 1.
Definition Millisecond : Duration := 1000000 * Nanosecond.
Definition Second : Duration := 1000 * Millisecond.
End time.

(** [cors.Options]: the fields of the policy a caller usually sets.  The
    package passes the value through to [cors.New] untouched. *)
Module cors.
Record Options := {
  AllowedOrigins : list string;
  AllowedMethods : list string;
  AllowedHeaders : list string;
  AllowCredentials : bool
}.
End cors.

(** [http.Handler] values, symbolically: the nil interface value (the zero
    value of the field, for which [net/http] falls back to the default mux),
    a handler supplied by the caller, and [cors.New(c).Handler(h)]. *)
Inductive http_Handler : Type :=
| nil_Handler
| user_Handler (id : nat)
| cors_Handler (c : cors.Options) (h : http_Handler).

(** Go's [error] values that can flow through the package. *)
Inductive error : Type :=
| no_error                         (* nil *)
| ErrServerClosed                  (* http.ErrServerClosed *)
| DeadlineExceeded                 (* context.DeadlineExceeded *)
| Canceled                         (* context.Canceled *)
| OpError (what : string).         (* a listen or certificate error *)

Module http.

(** A TCP listener a server has been given, and the transport served on
    it. *)
Inductive transport : Type :=
| Plaintext
| Encrypted (certFile keyFile : string).

Record Listener := {
  laddr : string;
  mode : transport;
  closed : bool
}.

(** State of a connection, as [Server.closeIdleConns] tells them apart. *)
Inductive ConnState : Type := StateActive | StateIdle.

(** [http.Server]: the exported fields the package sets, and the
    unexported run-time state behind [ListenAndServe] and [Shutdown]. *)
Record Server := {
  Addr : string;
  Handler : http_Handler;
  ReadTimeout : time.Duration;
  WriteTimeout : time.Duration;
  IdleTimeout : time.Duration;
  inShutdown : bool;
  listeners : list Listener;
  activeConn : list ConnState
}.

(** The zero value [http.Server{}]. *)
Definition zero : Server :=
  {| Addr := ""; Handler := nil_Handler;
     ReadTimeout := 0; WriteTimeout := 0; IdleTimeout := 0;
     inShutdown := false; listeners := []; activeConn := [] |}.

End http.

(** ** The package: configuration *)

(** [type Server struct].  [srv] is an [http.Server] held by value. *)
Record Server := {
  Port : Z;
  Addr : string;
  Handler : http_Handler;
  WriteTimeout : time.Duration;
  ReadTimeout : time.Duration;
  CertFile : string;
  KeyFile : string;
  ShutdownTimeout : time.Duration;
  srv : http.Server
}.

(** [type serverOpt func(s *Server)]: the closure mutates the pointee, here
    it maps the old value of the pointee to the new one. *)
Definition serverOpt := Server -> Server.

Definition WithTLS (certFile keyFile : string) : serverOpt := fun s =>
  {| Port := Port s; Addr := Addr s; Handler := Handler s;
     WriteTimeout := WriteTimeout s; ReadTimeout := ReadTimeout s;
     CertFile := certFile; KeyFile := keyFile;
     ShutdownTimeout := ShutdownTimeout s; srv := srv s |}.

Definition WithShutdownTimeout (t : time.Duration) : serverOpt := fun s =>
  {| Port := Port s; Addr := Addr s; Handler := Handler s;
     WriteTimeout := WriteTimeout s; ReadTimeout := ReadTimeout s;
     CertFile := CertFile s; KeyFile := KeyFile s;
     ShutdownTimeout := t; srv := srv s |}.

Definition WithPort (port : Z) : serverOpt := fun s =>
  {| Port := port; Addr := Addr s; Handler := Handler s;
     WriteTimeout := WriteTimeout s; ReadTimeout := ReadTimeout s;
     CertFile := CertFile s; KeyFile := KeyFile s;
     ShutdownTimeout := ShutdownTimeout s; srv := srv s |}.

Definition WithAddr (addr : string) : serverOpt := fun s =>
  {| Port := Port s; Addr := addr; Handler := Handler s;
     WriteTimeout := WriteTimeout s; ReadTimeout := ReadTimeout s;
     CertFile := CertFile s; KeyFile := KeyFile s;
     ShutdownTimeout := ShutdownTimeout s; srv := srv s |}.

Definition WithHandler (h : http_Handler) : serverOpt := fun s =>
  {| Port := Port s; Addr := Addr s; Handler := h;
     WriteTimeout := WriteTimeout s; ReadTimeout := ReadTimeout s;
     CertFile := CertFile s; KeyFile := KeyFile s;
     ShutdownTimeout := ShutdownTimeout s; srv := srv s |}.

Definition WithWriteTimeout (t : time.Duration) : serverOpt := fun s =>
  {| Port := Port s; Addr := Addr s; Handler := Handler s;
     WriteTimeout := t; ReadTimeout := ReadTimeout s;
     CertFile := CertFile s; KeyFile := KeyFile s;
     ShutdownTimeout := ShutdownTimeout s; srv := srv s |}.

Definition WithReadTimeout (t : time.Duration) : serverOpt := fun s =>
  {| Port := Port s; Addr := Addr s; Handler := Handler s;
     WriteTimeout := WriteTimeout s; ReadTimeout := t;
     CertFile := CertFile s; KeyFile := KeyFile s;
     ShutdownTimeout := ShutdownTimeout s; srv := srv s |}.

Definition WithCorsHandler (h : http_Handler) (c : cors.Options) : serverOpt :=
  fun s =>
  {| Port := Port s; Addr := Addr s; Handler := cors_Handler c h;
     WriteTimeout := WriteTimeout s; ReadTimeout := ReadTimeout s;
     CertFile := CertFile s; KeyFile := KeyFile s;
     ShutdownTimeout := ShutdownTimeout s; srv := srv s |}.

(** The struct literal of [NewServer]; the fields it leaves out take their
    zero values. *)
Definition defaults : Server :=
  {| Port := 8080; Addr := "";
     Handler := nil_Handler;
     WriteTimeout := 15 * time.Second;
     ReadTimeout := 15 * time.Second;
     CertFile := ""; KeyFile := "";
     ShutdownTimeout := 15 * time.Second;
     srv := http.zero |}.

(** [for _, opt := range opts { opt(s) }] *)
Fixpoint apply_opts (opts : list serverOpt) (s : Server) : Server :=
  match opts with
  | [] => s
  | opt :: rest => apply_opts rest (opt s)
  end.

Definition NewServer (opts : list serverOpt) : Server :=
  apply_opts opts defaults.

(** [fmt.Sprintf("%s:%d", addr, port)]: the string, a colon, and the integer
    in decimal with a minus sign when negative. *)
Definition Sprintf_s_d (addr : string) (port : Z) : string :=
  (addr +:+ ":" +:+ pretty port)%string.

(** ** Collaborators: run-time state

    The lifecycle methods act on one [Server], through the receiver [s], and
    on what the Go runtime keeps: the [http.Server] values allocated with
    [&http.Server{...}], contexts, channels, signal registrations and the
    clock. *)

Definition Signal := Z.

Module context.
(** A context made by [context.WithTimeout(context.Background(), d)], or
    handed in by a caller: [err] is [ctx.Err()], [no_error] until the
    context is done. *)
Record Context := {
  deadline : option Z;
  err : error
}.
End context.

(** [context.Background()] or a context of the machine. *)
Inductive ctx_ref : Type :=
| context_Background
| Ctx (i : nat).

(** [chan os.Signal] with its buffer. *)
Record Chan := {
  cap : nat;
  buf : list Signal
}.

(** A [*http.Server]: the address of the field [s.srv], the address of a
    value allocated by a composite literal, or nil. *)
Inductive srv_ref : Type :=
| nil_srv
| field_srv
| Alloc (n : nat).

(** The calls into [net/http] the machine records, newest first. *)
Inductive http_call : Type :=
| called_ListenAndServe (r : srv_ref)
| called_ListenAndServeTLS (r : srv_ref) (certFile keyFile : string)
| called_Shutdown (r : srv_ref) (ctx : ctx_ref).

Record Machine := {
  this : Server;                       (* the pointee of the receiver s *)
  heap : list http.Server;             (* &http.Server{...} allocations *)
  clock : Z;                           (* nanoseconds *)
  ctxs : list context.Context;
  chans : list Chan;
  notify : list (nat * Signal);        (* signal.Notify registrations *)
  refused : list string;               (* addresses net.Listen fails on *)
  keypairs : list (string * string);   (* pairs tls.LoadX509KeyPair loads *)
  calls : list http_call
}.

Definition set_this (s : Server) (m : Machine) : Machine :=
  {| this := s; heap := heap m; clock := clock m; ctxs := ctxs m;
     chans := chans m; notify := notify m; refused := refused m;
     keypairs := keypairs m; calls := calls m |}.

Definition set_heap (h : list http.Server) (m : Machine) : Machine :=
  {| this := this m; heap := h; clock := clock m; ctxs := ctxs m;
     chans := chans m; notify := notify m; refused := refused m;
     keypairs := keypairs m; calls := calls m |}.

Definition set_clock (t : Z) (m : Machine) : Machine :=
  {| this := this m; heap := heap m; clock := t; ctxs := ctxs m;
     chans := chans m; notify := notify m; refused := refused m;
     keypairs := keypairs m; calls := calls m |}.

Definition set_ctxs (c : list context.Context) (m : Machine) : Machine :=
  {| this := this m; heap := heap m; clock := clock m; ctxs := c;
     chans := chans m; notify := notify m; refused := refused m;
     keypairs := keypairs m; calls := calls m |}.

Definition set_chans (c : list Chan) (m : Machine) : Machine :=
  {| this := this m; heap := heap m; clock := clock m; ctxs := ctxs m;
     chans := c; notify := notify m; refused := refused m;
     keypairs := keypairs m; calls := calls m |}.

Definition set_notify (n : list (nat * Signal)) (m : Machine) : Machine :=
  {| this := this m; heap := heap m; clock := clock m; ctxs := ctxs m;
     chans := chans m; notify := n; refused := refused m;
     keypairs := keypairs m; calls := calls m |}.

Definition record_call (c : http_call) (m : Machine) : Machine :=
  {| this := this m; heap := heap m; clock := clock m; ctxs := ctxs m;
     chans := chans m; notify := notify m; refused := refused m;
     keypairs := keypairs m; calls := c :: calls m |}.

Definition set_srv (v : http.Server) (s : Server) : Server :=
  {| Port := Port s; Addr := Addr s; Handler := Handler s;
     WriteTimeout := WriteTimeout s; ReadTimeout := ReadTimeout s;
     CertFile := CertFile s; KeyFile := KeyFile s;
     ShutdownTimeout := ShutdownTimeout s; srv := v |}.

(** Reading and writing through a [*http.Server].  Nil has no pointee. *)
Definition load (r : srv_ref) (m : Machine) : option http.Server :=
  match r with
  | nil_srv => None
  | field_srv => Some (srv (this m))
  | Alloc n => heap m !! n
  end.

Definition store (r : srv_ref) (v : http.Server) (m : Machine) : Machine :=
  match r with
  | nil_srv => m
  | field_srv => set_this (set_srv v (this m)) m
  | Alloc n => set_heap (<[n:=v]> (heap m)) m
  end.

(** [ctx.Err()] *)
Definition ctx_err (m : Machine) (c : ctx_ref) : error :=
  match c with
  | context_Background => no_error
  | Ctx i => from_option context.err no_error (ctxs m !! i)
  end.

Module Import http_state.

Definition set_inShutdown (b : bool) (v : http.Server) : http.Server :=
  {| http.Addr := http.Addr v; http.Handler := http.Handler v;
     http.ReadTimeout := http.ReadTimeout v;
     http.WriteTimeout := http.WriteTimeout v;
     http.IdleTimeout := http.IdleTimeout v;
     http.inShutdown := b; http.listeners := http.listeners v;
     http.activeConn := http.activeConn v |}.

Definition set_listeners (l : list http.Listener) (v : http.Server)
  : http.Server :=
  {| http.Addr := http.Addr v; http.Handler := http.Handler v;
     http.ReadTimeout := http.ReadTimeout v;
     http.WriteTimeout := http.WriteTimeout v;
     http.IdleTimeout := http.IdleTimeout v;
     http.inShutdown := http.inShutdown v; http.listeners := l;
     http.activeConn := http.activeConn v |}.

Definition set_activeConn (c : list http.ConnState) (v : http.Server)
  : http.Server :=
  {| http.Addr := http.Addr v; http.Handler := http.Handler v;
     http.ReadTimeout := http.ReadTimeout v;
     http.WriteTimeout := http.WriteTimeout v;
     http.IdleTimeout := http.IdleTimeout v;
     http.inShutdown := http.inShutdown v;
     http.listeners := http.listeners v; http.activeConn := c |}.

Definition close (l : http.Listener) : http.Listener :=
  {| http.laddr := http.laddr l; http.mode := http.mode l;
     http.closed := true |}.

Definition is_idle (c : http.ConnState) : bool :=
  match c with http.StateIdle => true | http.StateActive => false end.

End http_state.

(** ** Programs over the collaborators

    A method body is a sequence of calls into the collaborators; each call
    either returns, blocks the goroutine, or panics. *)

Inductive call : Type -> Type :=
| deref_s : call Server
    (* read the fields of [*s] *)
| new_http_Server (v : http.Server) : call srv_ref
    (* [&http.Server{...}] *)
| http_ListenAndServe (r : srv_ref) : call error
| http_ListenAndServeTLS (r : srv_ref) (certFile keyFile : string) : call error
| http_Serve (r : srv_ref) (l : nat) : call error
    (* the accept loop of [Serve] on listener [l], where the two calls above
       end up *)
| http_Shutdown (r : srv_ref) (ctx : ctx_ref) : call error
| http_Shutdown_poll (r : srv_ref) (ctx : ctx_ref) : call error
    (* the polling loop of [Shutdown] *)
| context_WithTimeout_Background (d : time.Duration) : call ctx_ref
    (* [context.WithTimeout(context.Background(), d)] *)
| cancel (c : ctx_ref) : call unit
| make_chan (n : nat) : call nat
    (* [make(chan os.Signal, n)] *)
| signal_Notify (c : nat) (sig : Signal) : call unit
| recv (c : nat) : call Signal
    (* [<-c] *)
| recv_Done (ctx : ctx_ref) : call unit.
    (* [<-ctx.Done()] *)

Inductive prog (R : Type) : Type :=
| Ret (r : R)
| Call {X : Type} (c : call X) (k : X -> prog R).

Arguments Ret {R} r.
Arguments Call {R X} c k.

Notation "'let*' x ':=' c 'in' k" := (Call c (fun x => k))
  (at level 10, x name, c at level 100, k at level 200, only parsing).

(** What one attempt at a call yields: its result, the call it is now
    blocked in, or a panic. *)
Inductive reply (X : Type) : Type :=
| Returns (x : X) (m : Machine)
| Blocks (c : call X) (m : Machine)
| Panics.

Arguments Returns {X} x m.
Arguments Blocks {X} c m.
Arguments Panics {X}.

(** [Server.Serve]'s loop: [Accept] fails once the listener is closed, and
    the loop then returns [ErrServerClosed] if the server is shutting down. *)
Definition serve (r : srv_ref) (l : nat) (m : Machine) : reply error :=
  match load r m with
  | None => Panics
  | Some v =>
      match http.listeners v !! l with
      | None => Returns (OpError "accept") m
      | Some ln =>
          if http.closed ln then
            Returns (if http.inShutdown v then ErrServerClosed
                     else OpError "accept") m
          else Blocks (http_Serve r l) m
      end
  end.

(** [Server.ListenAndServe] and [Server.ListenAndServeTLS]: refuse when the
    server is shutting down, listen on [Addr] (or the default port of the
    scheme), for TLS load the key pair, then serve. *)
Definition listen_and_serve (r : srv_ref) (dflt : string)
    (tr : http.transport) (m : Machine) : reply error :=
  match load r m with
  | None => Panics
  | Some v =>
      if http.inShutdown v then Returns ErrServerClosed m else
      let addr := if decide (http.Addr v = "") then dflt else http.Addr v in
      if decide (addr ∈ refused m) then Returns (OpError "listen") m else
      match tr with
      | http.Encrypted c k =>
          if decide ((c, k) ∈ keypairs m) then
            let ln := {| http.laddr := addr; http.mode := tr;
                         http.closed := false |} in
            serve r (length (http.listeners v))
              (store r (set_listeners (http.listeners v ++ [ln]) v) m)
          else Returns (OpError "tls: load key pair") m
      | http.Plaintext =>
          let ln := {| http.laddr := addr; http.mode := tr;
                       http.closed := false |} in
          serve r (length (http.listeners v))
            (store r (set_listeners (http.listeners v ++ [ln]) v) m)
      end
  end.

(** [Server.closeIdleConns] followed by the [select] of [Shutdown]'s loop:
    idle connections are closed; when none is left busy the result is the
    (nil) error of closing the listeners, otherwise [ctx.Err()] once the
    context is done. *)
Definition shutdown_poll (r : srv_ref) (ctx : ctx_ref) (m : Machine)
    : reply error :=
  match load r m with
  | None => Panics
  | Some v =>
      let quiescent := forallb is_idle (http.activeConn v) in
      let m' := store r (set_activeConn
                           (filter (fun c => is_idle c = false)
                                   (http.activeConn v)) v) m in
      if quiescent then Returns no_error m'
      else match ctx_err m' ctx with
           | no_error => Blocks (http_Shutdown_poll r ctx) m'
           | e => Returns e m'
           end
  end.

(** [Server.Shutdown]: mark the server as shutting down, close its
    listeners, then poll. *)
Definition shutdown (r : srv_ref) (ctx : ctx_ref) (m : Machine)
    : reply error :=
  match load r m with
  | None => Panics
  | Some v =>
      shutdown_poll r ctx
        (store r (set_listeners (close <$> http.listeners v)
                    (set_inShutdown true v))
           (record_call (called_Shutdown r ctx) m))
  end.

Definition perform {X : Type} (c : call X) (m : Machine) : reply X :=
  match c in call X return reply X with
  | deref_s => Returns (this m) m
  | new_http_Server v =>
      Returns (Alloc (length (heap m))) (set_heap (heap m ++ [v]) m)
  | http_ListenAndServe r =>
      listen_and_serve r ":http" http.Plaintext
        (record_call (called_ListenAndServe r) m)
  | http_ListenAndServeTLS r certFile keyFile =>
      listen_and_serve r ":https" (http.Encrypted certFile keyFile)
        (record_call (called_ListenAndServeTLS r certFile keyFile) m)
  | http_Serve r l => serve r l m
  | http_Shutdown r ctx => shutdown r ctx m
  | http_Shutdown_poll r ctx => shutdown_poll r ctx m
  | context_WithTimeout_Background d =>
      Returns (Ctx (length (ctxs m)))
        (set_ctxs (ctxs m ++
                   [ {| context.deadline := Some (clock m + d);
                        context.err := if decide (d <= 0)
                                       then DeadlineExceeded
                                       else no_error |} ]) m)
  | cancel c =>
      match c with
      | context_Background => Returns tt m
      | Ctx i =>
          Returns tt
            (set_ctxs
               (alter (fun x =>
                         {| context.deadline := context.deadline x;
                            context.err :=
                              match context.err x with
                              | no_error => Canceled
                              | e => e
                              end |}) i (ctxs m)) m)
      end
  | make_chan n =>
      Returns (length (chans m))
        (set_chans (chans m ++ [ {| cap := n; buf := [] |} ]) m)
  | signal_Notify c sig =>
      Returns tt (set_notify ((c, sig) :: notify m) m)
  | recv c =>
      match chans m !! c with
      | Some {| cap := n; buf := sig :: rest |} =>
          Returns sig
            (set_chans (<[c := {| cap := n; buf := rest |}]> (chans m)) m)
      | _ => Blocks (recv c) m
      end
  | recv_Done ctx =>
      match ctx_err m ctx with
      | no_error => Blocks (recv_Done ctx) m
      | _ => Returns tt m
      end
  end.

(** Where a goroutine running a method stands. *)
Inductive outcome (R : Type) : Type :=
| Done (r : R) (m : Machine)
| Waiting (p : prog R) (m : Machine)
| Panicked.

Arguments Done {R} r m.
Arguments Waiting {R} p m.
Arguments Panicked {R}.

(** Run a goroutine until it returns, blocks or panics.  A blocked
    goroutine is resumed by running what it waits in. *)
Fixpoint run {R : Type} (p : prog R) (m : Machine) : outcome R :=
  match p with
  | Ret r => Done r m
  | Call c k =>
      match perform c m with
      | Returns x m' => run (k x) m'
      | Blocks c' m' => Waiting (Call c' k) m'
      | Panics => Panicked
      end
  end.

Definition machine_of {R : Type} (o : outcome R) : option Machine :=
  match o with
  | Done _ m | Waiting _ m => Some m
  | Panicked => None
  end.

(** ** The package: lifecycle *)

Definition Shutdown : prog error :=
  let* s := deref_s in
  let* ctx := context_WithTimeout_Background (ShutdownTimeout s) in
  let* err := http_Shutdown field_srv ctx in
  let* _ := cancel ctx in                      (* defer cancel() *)
  Ret err.

Definition WithSigShutdown (sig : Signal) : prog error :=
  let* c := make_chan 1 in
  let* _ := signal_Notify c sig in
  let* _ := recv c in
  Shutdown.

Definition WithContextShutdown (ctx : ctx_ref) : prog error :=
  let* _ := recv_Done ctx in
  Shutdown.

Definition Run : prog error :=
  let* s := deref_s in
  let* srv := new_http_Server
      {| http.Addr := Sprintf_s_d (Addr s) (Port s);
         http.WriteTimeout := WriteTimeout s;
         http.ReadTimeout := ReadTimeout s;
         http.IdleTimeout := time.Second * 60;
         http.Handler := Handler s;
         http.inShutdown := false; http.listeners := [];
         http.activeConn := [] |} in
  if decide (CertFile s ≠ "" ∧ KeyFile s ≠ "") then
    let* err := http_ListenAndServeTLS srv (CertFile s) (KeyFile s) in
    Ret err
  else
    let* err := http_ListenAndServe srv in
    Ret err.

(** ** The environment

    What happens around the goroutines: time passes, the process receives a
    signal, a caller cancels a context, a client connects and is sent its
    response. *)

Inductive happening : Type :=
| Tick (dt : Z)
| Deliver (sig : Signal)
| Cancel (i : nat)
| Accept (r : srv_ref)
| Finish (r : srv_ref) (i : nat).

(** A context whose deadline has passed is done with [DeadlineExceeded]. *)
Definition expire (t : Z) (x : context.Context) : context.Context :=
  match context.err x, context.deadline x with
  | no_error, Some d =>
      if decide (d <= t)
      then {| context.deadline := Some d; context.err := DeadlineExceeded |}
      else x
  | _, _ => x
  end.

(** [os/signal] sends the signal to every channel registered for it, and
    drops it for a channel whose buffer is full. *)
Definition send (sig : Signal) (c : Chan) : Chan :=
  if decide (length (buf c) < cap c)%nat
  then {| cap := cap c; buf := buf c ++ [sig] |}
  else c.

Fixpoint relay (sig : Signal) (reg : list (nat * Signal)) (cs : list Chan)
    : list Chan :=
  match reg with
  | [] => cs
  | (c, sig') :: rest =>
      let cs' := relay sig rest cs in
      if decide (sig' = sig) then alter (send sig) c cs' else cs'
  end.

Definition happen (h : happening) (m : Machine) : Machine :=
  match h with
  | Tick dt =>
      let t := clock m + Z.max 0 dt in
      set_ctxs (expire t <$> ctxs m) (set_clock t m)
  | Deliver sig => set_chans (relay sig (notify m) (chans m)) m
  | Cancel i =>
      set_ctxs
        (alter (fun x =>
                  {| context.deadline := context.deadline x;
                     context.err := match context.err x with
                                    | no_error => Canceled
                                    | e => e
                                    end |}) i (ctxs m)) m
  | Accept r =>
      match load r m with
      | Some v =>
          if existsb (fun l => negb (http.closed l)) (http.listeners v)
          then store r (set_activeConn
                          (http.activeConn v ++ [http.StateActive]) v) m
          else m
      | None => m
      end
  | Finish r i =>
      match load r m with
      | Some v =>
          store r (set_activeConn
                     (<[i := http.StateIdle]> (http.activeConn v)) v) m
      | None => m
      end
  end.

Definition happen_all (hs : list happening) (m : Machine) : Machine :=
  foldl (fun m h => happen h m) m hs.

(** The machine in which a freshly constructed [s] is about to be used:
    nothing allocated, nothing registered. *)
Definition boot (s : Server) (no_listen : list string)
    (pairs : list (string * string)) : Machine :=
  {| this := s; heap := []; clock := 0; ctxs := []; chans := [];
     notify := []; refused := no_listen; keypairs := pairs; calls := [] |}.

(** ** Option values and what they write

    [built] lists the option values a caller obtains from the package's
    builders, [option_of] is the closure each one stands for. *)

Inductive built : Type :=
| by_WithTLS (certFile keyFile : string)
| by_WithShutdownTimeout (t : time.Duration)
| by_WithPort (port : Z)
| by_WithAddr (addr : string)
| by_WithHandler (h : http_Handler)
| by_WithWriteTimeout (t : time.Duration)
| by_WithReadTimeout (t : time.Duration)
| by_WithCorsHandler (h : http_Handler) (c : cors.Options).

Definition option_of (b : built) : serverOpt :=
  match b with
  | by_WithTLS certFile keyFile => WithTLS certFile keyFile
  | by_WithShutdownTimeout t => WithShutdownTimeout t
  | by_WithPort port => WithPort port
  | by_WithAddr addr => WithAddr addr
  | by_WithHandler h => WithHandler h
  | by_WithWriteTimeout t => WithWriteTimeout t
  | by_WithReadTimeout t => WithReadTimeout t
  | by_WithCorsHandler h c => WithCorsHandler h c
  end.

Module Spec.

(** Stated from the specification, to be compared with [NewServer]: the
    value of a field after a sequence of options is the one written by the
    last option that targets the field, and the default when no option
    targets it.  [writes b] is the value option [b] is meant to give the
    field, if it targets the field at all. *)
Definition last_applied {A : Type} (writes : built -> option A)
    (dflt : A) (bs : list built) : A :=
  default dflt (last (omap writes bs)).

Definition to_Port (b : built) : option Z :=
  match b with by_WithPort p => Some p | _ => None end.

Definition to_Addr (b : built) : option string :=
  match b with by_WithAddr a => Some a | _ => None end.

Definition to_Handler (b : built) : option http_Handler :=
  match b with
  | by_WithHandler h => Some h
  | by_WithCorsHandler h c => Some (cors_Handler c h)
  | _ => None
  end.

Definition to_WriteTimeout (b : built) : option time.Duration :=
  match b with by_WithWriteTimeout t => Some t | _ => None end.

Definition to_ReadTimeout (b : built) : option time.Duration :=
  match b with by_WithReadTimeout t => Some t | _ => None end.

Definition to_ShutdownTimeout (b : built) : option time.Duration :=
  match b with by_WithShutdownTimeout t => Some t | _ => None end.

Definition to_CertFile (b : built) : option string :=
  match b with by_WithTLS c _ => Some c | _ => None end.

Definition to_KeyFile (b : built) : option string :=
  match b with by_WithTLS _ k => Some k | _ => None end.

End Spec.

(** ** Stages of [Run] and [Shutdown]

    Names for the machines and programs the two methods go through, used to
    state what they evaluate to. *)

(** The composite literal of [Run]. *)
Definition Run_srv (s : Server) : http.Server :=
  {| http.Addr := Sprintf_s_d (Addr s) (Port s);
     http.WriteTimeout := WriteTimeout s;
     http.ReadTimeout := ReadTimeout s;
     http.IdleTimeout := time.Second * 60;
     http.Handler := Handler s;
     http.inShutdown := false; http.listeners := [];
     http.activeConn := [] |}.

(** The transport [Run] asks for, and the call it makes for it. *)
Definition Run_transport (s : Server) : http.transport :=
  if decide (CertFile s ≠ "" ∧ KeyFile s ≠ "")
  then http.Encrypted (CertFile s) (KeyFile s)
  else http.Plaintext.

Definition Run_call (s : Server) (r : srv_ref) : http_call :=
  match Run_transport s with
  | http.Encrypted c k => called_ListenAndServeTLS r c k
  | http.Plaintext => called_ListenAndServe r
  end.

Definition loadable (tr : http.transport) (m : Machine) : bool :=
  match tr with
  | http.Plaintext => true
  | http.Encrypted c k => bool_decide ((c, k) ∈ keypairs m)
  end.

(** The machine once [Run] has allocated its server and made its call... *)
Definition Run_called (m : Machine) : Machine :=
  record_call (Run_call (this m) (Alloc (length (heap m))))
    (set_heap (heap m ++ [Run_srv (this m)]) m).

(** ... and once that server listens. *)
Definition Run_listening (m : Machine) : Machine :=
  set_heap
    (heap m ++
     [set_listeners
        [ {| http.laddr := Sprintf_s_d (Addr (this m)) (Port (this m));
             http.mode := Run_transport (this m);
             http.closed := false |} ]
        (Run_srv (this m))])
    (Run_called m).

(** The context [Shutdown] creates: its deadline is [ShutdownTimeout] from
    now, and it is done at once when the timeout is not positive. *)
Definition Shutdown_ctx (m : Machine) : context.Context :=
  {| context.deadline := Some (clock m + ShutdownTimeout (this m));
     context.err := if decide (ShutdownTimeout (this m) <= 0)
                    then DeadlineExceeded else no_error |}.

(** The embedded [s.srv] once [Shutdown] has gone through it: marked as
    shutting down, its listeners closed, its idle connections dropped. *)
Definition srv_stopped (v : http.Server) : http.Server :=
  set_activeConn (filter (fun c => is_idle c = false) (http.activeConn v))
    (set_listeners (close <$> http.listeners v) (set_inShutdown true v)).

(** The machine once [Shutdown] has called into [s.srv]... *)
Definition Shutdown_begun (m : Machine) : Machine :=
  store field_srv (srv_stopped (srv (this m)))
    (record_call (called_Shutdown field_srv (Ctx (length (ctxs m))))
       (set_ctxs (ctxs m ++ [Shutdown_ctx m]) m)).

(** ... and once the deferred [cancel] has run. *)
Definition Shutdown_returned (m : Machine) : Machine :=
  set_ctxs
    (ctxs m ++
     [ {| context.deadline := context.deadline (Shutdown_ctx m);
          context.err := match context.err (Shutdown_ctx m) with
                         | no_error => Canceled
                         | e => e
                         end |} ])
    (Shutdown_begun m).

(** What is left of [Shutdown] while [s.srv.Shutdown] polls. *)
Definition Shutdown_polling (ctx : ctx_ref) : prog error :=
  let* err := http_Shutdown_poll field_srv ctx in
  let* _ := cancel ctx in
  Ret err.

(** What is left of [WithSigShutdown] while it waits on its channel [c]. *)
Definition WithSigShutdown_waiting (c : nat) : prog error :=
  let* _ := recv c in
  Shutdown.

(** Every [signal.Notify] registration names a channel that exists. *)
Definition registered_exist (m : Machine) : Prop :=
  Forall (fun reg => (reg.1 < length (chans m))%nat) (notify m).

(** Nothing listens on the embedded [s.srv] and it has no connection. *)
Definition field_srv_unused (m : Machine) : Prop :=
  http.listeners (srv (this m)) = [] /\ http.activeConn (srv (this m)) = [].

(** The calls into [net/http] made so far, read off an outcome. *)
Definition http_calls_of {R : Type} (o : outcome R) : list http_call :=
  from_option calls [] (machine_of o).

(** Every registration of channel [c] is for the signal [sig]. *)
Definition only_for (c : nat) (sig : Signal) (reg : list (nat * Signal))
    : Prop :=
  Forall (fun r => r.1 = c -> r.2 = sig) reg.

(** The machine once [WithSigShutdown] has made its channel and registered
    it for [sig]. *)
Definition WithSigShutdown_registered (sig : Signal) (m : Machine) : Machine :=
  set_notify ((length (chans m), sig) :: notify m)
    (set_chans (chans m ++ [ {| cap := 1; buf := [] |} ]) m).

(** The machine once the goroutine has taken the signal out of channel
    [c]. *)
Definition received (c : nat) (m : Machine) : Machine :=
  set_chans (<[c := {| cap := 1; buf := [] |}]> (chans m)) m.

(** The body of [Shutdown] with a pointer [r] in place of [&s.srv] and a
    timeout [d] in place of [s.ShutdownTimeout]: not part of the package,
    used to show what the collaborators do when the server that is serving
    is the one shut down. *)
Definition Shutdown_through (r : srv_ref) (d : time.Duration) : prog error :=
  let* ctx := context_WithTimeout_Background d in
  let* err := http_Shutdown r ctx in
  let* _ := cancel ctx in
  Ret err.

(** ** Fields and the options that write them *)

(** The configuration fields of [Server], and the value a field holds. *)
Inductive field : Type :=
| F_Port | F_Addr | F_Handler | F_WriteTimeout | F_ReadTimeout
| F_CertFile | F_KeyFile | F_ShutdownTimeout.

Inductive value : Type :=
| V_int (z : Z)
| V_string (s : string)
| V_Handler (h : http_Handler)
| V_Duration (t : time.Duration).

#[global] Instance field_eq_dec : EqDecision field.
Proof. solve_decision. Defined.

Definition read (f : field) (s : Server) : value :=
  match f with
  | F_Port => V_int (Port s)
  | F_Addr => V_string (Addr s)
  | F_Handler => V_Handler (Handler s)
  | F_WriteTimeout => V_Duration (WriteTimeout s)
  | F_ReadTimeout => V_Duration (ReadTimeout s)
  | F_CertFile => V_string (CertFile s)
  | F_KeyFile => V_string (KeyFile s)
  | F_ShutdownTimeout => V_Duration (ShutdownTimeout s)
  end.

(** The fields assigned in the body of each builder's closure. *)
Definition targets (b : built) : list field :=
  match b with
  | by_WithTLS _ _ => [F_CertFile; F_KeyFile]
  | by_WithShutdownTimeout _ => [F_ShutdownTimeout]
  | by_WithPort _ => [F_Port]
  | by_WithAddr _ => [F_Addr]
  | by_WithHandler _ => [F_Handler]
  | by_WithWriteTimeout _ => [F_WriteTimeout]
  | by_WithReadTimeout _ => [F_ReadTimeout]
  | by_WithCorsHandler _ _ => [F_Handler]
  end.

(** ** Goroutines of the package

    What a goroutine that entered one of the four lifecycle methods can be
    running: the method, or what is left of it after it blocked. *)

Inductive package_prog : prog error -> Prop :=
| pp_Run : package_prog Run
| pp_Shutdown : package_prog Shutdown
| pp_WithSigShutdown (sig : Signal) : package_prog (WithSigShutdown sig)
| pp_WithContextShutdown (ctx : ctx_ref) :
    package_prog (WithContextShutdown ctx)
| pp_resumed (p p' : prog error) (m m' : Machine) :
    package_prog p -> run p m = Waiting p' m' -> package_prog p'.

(** The machines that goroutines of the package and the environment lead
    to, in any interleaving: each step is a happening, or a goroutine
    running from where it stands until it returns or blocks. *)
Inductive reachable (m0 : Machine) : Machine -> Prop :=
| reach_here : reachable m0 m0
| reach_happen (h : happening) (m : Machine) :
    reachable m0 m -> reachable m0 (happen h m)
| reach_run (p : prog error) (m m' : Machine) :
    reachable m0 m -> package_prog p ->
    machine_of (run p m) = Some m' -> reachable m0 m'.

(** What a step of a goroutine of the package can do to [*s] and to the
    allocated servers: nothing, allocate one server, or go through [s.srv]
    the way [Shutdown] and its polling loop do. *)
Inductive moves (m m' : Machine) : Prop :=
| moves_nothing :
    this m' = this m -> heap m' = heap m -> moves m m'
| moves_alloc (v : http.Server) :
    this m' = this m -> heap m' = heap m ++ [v] -> moves m m'
| moves_stop :
    this m' = set_srv (srv_stopped (srv (this m))) (this m) ->
    heap m' = heap m -> moves m m'
| moves_drop_idle :
    this m' =
      set_srv (set_activeConn
                 (filter (fun c => is_idle c = false)
                    (http.activeConn (srv (this m))))
                 (srv (this m))) (this m) ->
    heap m' = heap m -> moves m m'.

(** The result of a goroutine that has returned. *)
Definition result_of {R : Type} (o : outcome R) : option R :=
  match o with
  | Done r _ => Some r
  | _ => None
  end.

(** ** The other two listings of [src/server.go]

    The file holds the package three times.  The listing embedded above is
    the middle one.  The first (lines 1-135) is the same package without
    [CertFile], [KeyFile] and [WithTLS]; the last (lines 287-403,
    [package server]) has neither these nor the read and write timeouts.
    [Shutdown], [WithSigShutdown] and [WithContextShutdown] read the same in
    all three.  [Run] only reads [*s], once, on entry: the two [Run] below
    take the pointee as their argument. *)

Module plain.

Record Server := {
  Port : Z;
  Addr : string;
  Handler : http_Handler;
  WriteTimeout : time.Duration;
  ReadTimeout : time.Duration;
  ShutdownTimeout : time.Duration;
  srv : http.Server
}.

Definition serverOpt := Server -> Server.

Definition WithShutdownTimeout (t : time.Duration) : serverOpt := fun s =>
  {| Port := Port s; Addr := Addr s; Handler := Handler s;
     WriteTimeout := WriteTimeout s; ReadTimeout := ReadTimeout s;
     ShutdownTimeout := t; srv := srv s |}.

Definition WithPort (port : Z) : serverOpt := fun s =>
  {| Port := port; Addr := Addr s; Handler := Handler s;
     WriteTimeout := WriteTimeout s; ReadTimeout := ReadTimeout s;
     ShutdownTimeout := ShutdownTimeout s; srv := srv s |}.

Definition WithAddr (addr : string) : serverOpt := fun s =>
  {| Port := Port s; Addr := addr; Handler := Handler s;
     WriteTimeout := WriteTimeout s; ReadTimeout := ReadTimeout s;
     ShutdownTimeout := ShutdownTimeout s; srv := srv s |}.

Definition WithHandler (h : http_Handler) : serverOpt := fun s =>
  {| Port := Port s; Addr := Addr s; Handler := h;
     WriteTimeout := WriteTimeout s; ReadTimeout := ReadTimeout s;
     ShutdownTimeout := ShutdownTimeout s; srv := srv s |}.

Definition WithWriteTimeout (t : time.Duration) : serverOpt := fun s =>
  {| Port := Port s; Addr := Addr s; Handler := Handler s;
     WriteTimeout := t; ReadTimeout := ReadTimeout s;
     ShutdownTimeout := ShutdownTimeout s; srv := srv s |}.

Definition WithReadTimeout (t : time.Duration) : serverOpt := fun s =>
  {| Port := Port s; Addr := Addr s; Handler := Handler s;
     WriteTimeout := WriteTimeout s; ReadTimeout := t;
     ShutdownTimeout := ShutdownTimeout s; srv := srv s |}.

Definition WithCorsHandler (h : http_Handler) (c : cors.Options) : serverOpt :=
  fun s =>
  {| Port := Port s; Addr := Addr s; Handler := cors_Handler c h;
     WriteTimeout := WriteTimeout s; ReadTimeout := ReadTimeout s;
     ShutdownTimeout := ShutdownTimeout s; srv := srv s |}.

Definition defaults : Server :=
  {| Port := 8080; Addr := "";
     Handler := nil_Handler;
     WriteTimeout := 15 * time.Second;
     ReadTimeout := 15 * time.Second;
     ShutdownTimeout := 15 * time.Second;
     srv := http.zero |}.

Fixpoint apply_opts (opts : list serverOpt) (s : Server) : Server :=
  match opts with
  | [] => s
  | opt :: rest => apply_opts rest (opt s)
  end.

Definition NewServer (opts : list serverOpt) : Server :=
  apply_opts opts defaults.

Definition Run (s : Server) : prog error :=
  let* srv := new_http_Server
      {| http.Addr := Sprintf_s_d (Addr s) (Port s);
         http.WriteTimeout := WriteTimeout s;
         http.ReadTimeout := ReadTimeout s;
         http.IdleTimeout := time.Second * 60;
         http.Handler := Handler s;
         http.inShutdown := false; http.listeners := [];
         http.activeConn := [] |} in
  let* err := http_ListenAndServe srv in
  Ret err.

(** The option values of this listing's builders. *)
Inductive built : Type :=
| by_WithShutdownTimeout (t : time.Duration)
| by_WithPort (port : Z)
| by_WithAddr (addr : string)
| by_WithHandler (h : http_Handler)
| by_WithWriteTimeout (t : time.Duration)
| by_WithReadTimeout (t : time.Duration)
| by_WithCorsHandler (h : http_Handler) (c : cors.Options).

Definition option_of (b : built) : serverOpt :=
  match b with
  | by_WithShutdownTimeout t => WithShutdownTimeout t
  | by_WithPort port => WithPort port
  | by_WithAddr addr => WithAddr addr
  | by_WithHandler h => WithHandler h
  | by_WithWriteTimeout t => WithWriteTimeout t
  | by_WithReadTimeout t => WithReadTimeout t
  | by_WithCorsHandler h c => WithCorsHandler h c
  end.

End plain.

Module server.

Record Server := {
  Port : Z;
  Addr : string;
  Handler : http_Handler;
  ShutdownTimeout : time.Duration;
  srv : http.Server
}.

Definition serverOpt := Server -> Server.

Definition WithShutdownTimeout (t : time.Duration) : serverOpt := fun s =>
  {| Port := Port s; Addr := Addr s; Handler := Handler s;
     ShutdownTimeout := t; srv := srv s |}.

Definition WithPort (port : Z) : serverOpt := fun s =>
  {| Port := port; Addr := Addr s; Handler := Handler s;
     ShutdownTimeout := ShutdownTimeout s; srv := srv s |}.

Definition WithAddr (addr : string) : serverOpt := fun s =>
  {| Port := Port s; Addr := addr; Handler := Handler s;
     ShutdownTimeout := ShutdownTimeout s; srv := srv s |}.

Definition WithHandler (h : http_Handler) : serverOpt := fun s =>
  {| Port := Port s; Addr := Addr s; Handler := h;
     ShutdownTimeout := ShutdownTimeout s; srv := srv s |}.

Definition WithCorsHandler (h : http_Handler) (c : cors.Options) : serverOpt :=
  fun s =>
  {| Port := Port s; Addr := Addr s; Handler := cors_Handler c h;
     ShutdownTimeout := ShutdownTimeout s; srv := srv s |}.

Definition defaults : Server :=
  {| Port := 8080; Addr := "";
     Handler := nil_Handler;
     ShutdownTimeout := 15 * time.Second;
     srv := http.zero |}.

Fixpoint apply_opts (opts : list serverOpt) (s : Server) : Server :=
  match opts with
  | [] => s
  | opt :: rest => apply_opts rest (opt s)
  end.

Definition NewServer (opts : list serverOpt) : Server :=
  apply_opts opts defaults.

Definition Run (s : Server) : prog error :=
  let* srv := new_http_Server
      {| http.Addr := Sprintf_s_d (Addr s) (Port s);
         http.WriteTimeout := time.Second * 15;
         http.ReadTimeout := time.Second * 15;
         http.IdleTimeout := time.Second * 60;
         http.Handler := Handler s;
         http.inShutdown := false; http.listeners := [];
         http.activeConn := [] |} in
  let* err := http_ListenAndServe srv in
  Ret err.

(** The option values of this listing's builders. *)
Inductive built : Type :=
| by_WithShutdownTimeout (t : time.Duration)
| by_WithPort (port : Z)
| by_WithAddr (addr : string)
| by_WithHandler (h : http_Handler)
| by_WithCorsHandler (h : http_Handler) (c : cors.Options).

Definition option_of (b : built) : serverOpt :=
  match b with
  | by_WithShutdownTimeout t => WithShutdownTimeout t
  | by_WithPort port => WithPort port
  | by_WithAddr addr => WithAddr addr
  | by_WithHandler h => WithHandler h
  | by_WithCorsHandler h c => WithCorsHandler h c
  end.

End server.

(** The same option, and the same configuration, in the listing with TLS. *)
Definition plain_option (b : plain.built) : built :=
  match b with
  | plain.by_WithShutdownTimeout t => by_WithShutdownTimeout t
  | plain.by_WithPort port => by_WithPort port
  | plain.by_WithAddr addr => by_WithAddr addr
  | plain.by_WithHandler h => by_WithHandler h
  | plain.by_WithWriteTimeout t => by_WithWriteTimeout t
  | plain.by_WithReadTimeout t => by_WithReadTimeout t
  | plain.by_WithCorsHandler h c => by_WithCorsHandler h c
  end.

Definition plain_Server (s : plain.Server) : Server :=
  {| Port := plain.Port s; Addr := plain.Addr s;
     Handler := plain.Handler s;
     WriteTimeout := plain.WriteTimeout s;
     ReadTimeout := plain.ReadTimeout s;
     CertFile := ""; KeyFile := "";
     ShutdownTimeout := plain.ShutdownTimeout s; srv := plain.srv s |}.

Definition server_option (b : server.built) : built :=
  match b with
  | server.by_WithShutdownTimeout t => by_WithShutdownTimeout t
  | server.by_WithPort port => by_WithPort port
  | server.by_WithAddr addr => by_WithAddr addr
  | server.by_WithHandler h => by_WithHandler h
  | server.by_WithCorsHandler h c => by_WithCorsHandler h c
  end.

Definition server_Server (s : server.Server) : Server :=
  {| Port := server.Port s; Addr := server.Addr s;
     Handler := server.Handler s;
     WriteTimeout := 15 * time.Second;
     ReadTimeout := 15 * time.Second;
     CertFile := ""; KeyFile := "";
     ShutdownTimeout := server.ShutdownTimeout s; srv := server.srv s |}.

(** * Properties of the configuration builder *)


Lemma apply_opts_app (opts1 opts2 : list serverOpt) (s : Server) :
  apply_opts (opts1 ++ opts2) s = apply_opts opts2 (apply_opts opts1 s).
Proof.
  revert s. induction opts1 as [|opt opts1 IH]; intros s; simpl.
  - reflexivity.
  - apply IH.
Qed.

(** One step of the comparison: a field after [b :: bs], from any start. *)
Lemma last_applied_cons {A : Type} (writes : built -> option A)
    (dflt : A) (b : built) (bs : list built) :
  Spec.last_applied writes dflt (b :: bs) =
  Spec.last_applied writes (default dflt (writes b)) bs.
Proof.
  unfold Spec.last_applied. cbn [omap list_omap].
  destruct (writes b) as [v|]; [|reflexivity].
  rewrite last_cons. cbn [default].
  destruct (last _); reflexivity.
Qed.

(** A field read off the result of the loop is the last value applied to
    it, whatever the loop started from. *)
Lemma field_last_applied {A : Type} (field : Server -> A)
    (writes : built -> option A) :
  (forall b s, field (option_of b s) = default (field s) (writes b)) ->
  forall bs s,
    field (apply_opts (option_of <$> bs) s) =
    Spec.last_applied writes (field s) bs.
Proof.
  intros Hstep bs. induction bs as [|b bs IH]; intros s.
  - reflexivity.
  - rewrite last_applied_cons. simpl. rewrite IH, Hstep. reflexivity.
Qed.

(** No option touches the embedded [http.Server]. *)
Lemma options_keep_srv (bs : list built) (s : Server) :
  srv (apply_opts (option_of <$> bs) s) = srv s.
Proof.
  revert s. induction bs as [|b bs IH]; intros s; simpl.
  - reflexivity.
  - rewrite IH. destruct b; reflexivity.
Qed.


(** Settle one field of [NewServer]'s result by [field_last_applied]. *)
Ltac field_by field writes :=
  refine (field_last_applied field writes _ _ defaults);
  let b := fresh "b" in let s := fresh "s" in
  intros b s; destruct b; reflexivity.

(** C4.  [NewServer] called with no options yields port 8080, the empty
    address, and read, write and shutdown timeouts of 15 seconds each
    (15 000 000 000 ns). *)
Theorem NewServer_defaults :
  Port (NewServer []) = 8080 /\
  Addr (NewServer []) = "" /\
  ReadTimeout (NewServer []) = 15 * time.Second /\
  WriteTimeout (NewServer []) = 15 * time.Second /\
  ShutdownTimeout (NewServer []) = 15 * time.Second /\
  15 * time.Second = 15000000000.
Proof. repeat split. Qed.

(** C5.  [NewServer] applies its options in the order given: the options of
    a longer list act on the result of the shorter one; and for every
    sequence of options obtained from the builders each field of the result
    holds the value of the last option that targets the field, and the
    default of the field when none does. *)
Theorem NewServer_last_write_wins :
  (forall opts1 opts2 : list serverOpt,
      NewServer (opts1 ++ opts2) = apply_opts opts2 (NewServer opts1)) /\
  (forall bs : list built,
      let s := NewServer (option_of <$> bs) in
      Port s = Spec.last_applied Spec.to_Port 8080 bs /\
      Addr s = Spec.last_applied Spec.to_Addr "" bs /\
      Handler s = Spec.last_applied Spec.to_Handler nil_Handler bs /\
      WriteTimeout s =
        Spec.last_applied Spec.to_WriteTimeout (15 * time.Second) bs /\
      ReadTimeout s =
        Spec.last_applied Spec.to_ReadTimeout (15 * time.Second) bs /\
      ShutdownTimeout s =
        Spec.last_applied Spec.to_ShutdownTimeout (15 * time.Second) bs /\
      CertFile s = Spec.last_applied Spec.to_CertFile "" bs /\
      KeyFile s = Spec.last_applied Spec.to_KeyFile "" bs).
Proof.
  split.
  - intros opts1 opts2. apply apply_opts_app.
  - intros bs s. subst s. unfold NewServer.
    repeat apply conj.
    + field_by Port Spec.to_Port.
    + field_by Addr Spec.to_Addr.
    + field_by Handler Spec.to_Handler.
    + field_by WriteTimeout Spec.to_WriteTimeout.
    + field_by ReadTimeout Spec.to_ReadTimeout.
    + field_by ShutdownTimeout Spec.to_ShutdownTimeout.
    + field_by CertFile Spec.to_CertFile.
    + field_by KeyFile Spec.to_KeyFile.
Qed.

(** C9.  The option builders store their argument as it is: for every
    integer [p], negative or beyond the range of TCP ports, [WithPort p]
    leaves exactly [p] in [Port], and for every duration [t], negative or
    not, each timeout option leaves exactly [t] in its field.  The builders
    have no failure result and the constructor keeps the values. *)
Theorem options_store_unvalidated (p : Z) (t : time.Duration) (s : Server) :
  Port (WithPort p s) = p /\
  ShutdownTimeout (WithShutdownTimeout t s) = t /\
  ReadTimeout (WithReadTimeout t s) = t /\
  WriteTimeout (WithWriteTimeout t s) = t /\
  Port (NewServer [WithPort p]) = p /\
  ShutdownTimeout (NewServer [WithShutdownTimeout t]) = t /\
  ReadTimeout (NewServer [WithReadTimeout t]) = t /\
  WriteTimeout (NewServer [WithWriteTimeout t]) = t.
Proof. repeat split. Qed.

Example options_in_order :
  let s := NewServer [WithPort 1; WithAddr "localhost"; WithPort 2;
                      WithTLS "a.pem" "a.key"; WithTLS "b.pem" "b.key"] in
  Port s = 2 /\ Addr s = "localhost" /\
  CertFile s = "b.pem" /\ KeyFile s = "b.key" /\
  ReadTimeout s = 15000000000.
Proof. repeat split. Qed.

Example out_of_range_values_kept :
  let s := NewServer [WithPort (-1); WithShutdownTimeout (-5);
                      WithReadTimeout 0; WithWriteTimeout (-1)] in
  Port s = -1 /\ ShutdownTimeout s = -5 /\
  ReadTimeout s = 0 /\ WriteTimeout s = -1 /\
  Port (NewServer [WithPort 70000]) = 70000.
Proof. repeat split. Qed.

(** C10.  [WithCorsHandler h c] sets the handler to the cross-origin
    wrapping of its own argument [h]: the result does not depend on the
    handler configured before, and when that handler is not [h] the result
    is not its wrapping. *)
Theorem WithCorsHandler_wraps_argument
    (h : http_Handler) (c : cors.Options) (s : Server) :
  Handler (WithCorsHandler h c s) = cors_Handler c h /\
  (forall h0, Handler (WithCorsHandler h c (WithHandler h0 s)) =
              cors_Handler c h) /\
  (forall opts, Handler (NewServer (opts ++ [WithCorsHandler h c])) =
                cors_Handler c h) /\
  (Handler s <> h ->
   Handler (WithCorsHandler h c s) <> cors_Handler c (Handler s)).
Proof.
  repeat split.
  - intros opts. unfold NewServer. rewrite apply_opts_app. reflexivity.
  - intros Hne Heq. simpl in Heq. injection Heq as Heq. auto.
Qed.

Lemma WithCorsHandler_wraps_argument_witness :
  let s := NewServer [WithHandler (user_Handler 1)] in
  let c := {| cors.AllowedOrigins := ["https://example.com"];
              cors.AllowedMethods := []; cors.AllowedHeaders := [];
              cors.AllowCredentials := false |} in
  Handler s <> user_Handler 2 /\
  Handler (WithCorsHandler (user_Handler 2) c s) =
    cors_Handler c (user_Handler 2) /\
  Handler (WithCorsHandler (user_Handler 2) c s) <>
    cors_Handler c (Handler s).
Proof.
  intros s c.
  pose proof (WithCorsHandler_wraps_argument (user_Handler 2) c s)
    as (Heq & _ & _ & Hne).
  assert (Hs : Handler s <> user_Handler 2) by (simpl; discriminate).
  split; [exact Hs|]. split; [exact Heq|]. exact (Hne Hs).
Defined.

(** * Properties of the lifecycle *)

(** ** What [Run] does *)

Lemma Sprintf_s_d_nonempty (a : string) (p : Z) : Sprintf_s_d a p <> "".
Proof. unfold Sprintf_s_d. destruct a; simpl; discriminate. Qed.

Lemma insert_snoc {A : Type} (l : list A) (x y : A) :
  <[length l := y]> (l ++ [x]) = l ++ [y].
Proof.
  replace (length l) with (length l + 0)%nat by lia.
  rewrite insert_app_r. reflexivity.
Qed.

(** Listening on a server that was just allocated, has not been shut down
    and has no listener yet. *)
Lemma listen_and_serve_fresh (m : Machine) (v : http.Server)
    (dflt : string) (tr : http.transport) (c : http_call) :
  http.inShutdown v = false ->
  http.listeners v = [] ->
  http.Addr v <> "" ->
  let r := Alloc (length (heap m)) in
  let m1 := record_call c (set_heap (heap m ++ [v]) m) in
  listen_and_serve r dflt tr m1 =
  if decide (http.Addr v ∈ refused m) then Returns (OpError "listen") m1
  else if loadable tr m then
    Blocks (http_Serve r 0)
      (set_heap
         (heap m ++
          [set_listeners [ {| http.laddr := http.Addr v; http.mode := tr;
                              http.closed := false |} ] v]) m1)
  else Returns (OpError "tls: load key pair") m1.
Proof.
  intros Hup Hnil Haddr r m1.
  assert (Hload : load r m1 = Some v).
  { subst r m1. cbn. apply list_lookup_middle. reflexivity. }
  assert (Hstore : forall v', store r v' m1 =
                              set_heap (heap m ++ [v']) m1).
  { intros v'. subst r m1. unfold store. cbn. rewrite insert_snoc.
    reflexivity. }
  assert (Hserve : forall ln,
    serve r 0 (set_heap (heap m ++ [set_listeners [ln] v]) m1) =
    if http.closed ln then
      Returns (OpError "accept")
        (set_heap (heap m ++ [set_listeners [ln] v]) m1)
    else Blocks (http_Serve r 0)
           (set_heap (heap m ++ [set_listeners [ln] v]) m1)).
  { intros ln. unfold serve. subst r. cbn [load heap set_heap].
    rewrite list_lookup_middle by reflexivity. cbn.
    rewrite Hup. reflexivity. }
  assert (Href : refused m1 = refused m) by reflexivity.
  assert (Hkey : keypairs m1 = keypairs m) by reflexivity.
  clearbody r m1. unfold listen_and_serve.
  rewrite Hload, Hup, Hnil, Href.
  destruct (decide (http.Addr v = "")) as [E|_]; [contradiction|].
  destruct (decide (http.Addr v ∈ refused m)) as [_|_]; [reflexivity|].
  destruct tr as [|cf kf]; cbn [loadable length app].
  - rewrite Hstore, Hserve. reflexivity.
  - rewrite Hkey.
    destruct (decide ((cf, kf) ∈ keypairs m)) as [Hin|Hin].
    + rewrite (bool_decide_eq_true_2 _ Hin), Hstore, Hserve. reflexivity.
    + rewrite (bool_decide_eq_false_2 _ Hin). reflexivity.
Qed.

(** [Run], evaluated: it reads [*s], allocates its own [http.Server],
    makes one call on it, and either fails to listen or blocks serving. *)
Lemma run_Run (m : Machine) :
  run Run m =
  if decide (Sprintf_s_d (Addr (this m)) (Port (this m)) ∈ refused m)
  then Done (OpError "listen") (Run_called m)
  else if loadable (Run_transport (this m)) m
  then Waiting (Call (http_Serve (Alloc (length (heap m))) 0) Ret)
         (Run_listening m)
  else Done (OpError "tls: load key pair") (Run_called m).
Proof.
  unfold Run. cbn [run perform].
  unfold Run_listening, Run_called, Run_call, Run_transport.
  destruct (decide (CertFile (this m) ≠ "" ∧ KeyFile (this m) ≠ ""))
    as [_|_]; cbn [run perform].
  - change (set_heap _ m) with (set_heap (heap m ++ [Run_srv (this m)]) m).
    change (length (heap (record_call ?c m)))
      with (length (heap m)).
    rewrite (listen_and_serve_fresh m (Run_srv (this m)));
      [|reflexivity|reflexivity|apply Sprintf_s_d_nonempty].
    cbn [Run_srv http.Addr].
    destruct (decide _); [reflexivity|].
    destruct (loadable _ m); reflexivity.
  - change (set_heap _ m) with (set_heap (heap m ++ [Run_srv (this m)]) m).
    rewrite (listen_and_serve_fresh m (Run_srv (this m)));
      [|reflexivity|reflexivity|apply Sprintf_s_d_nonempty].
    cbn [Run_srv http.Addr].
    destruct (decide _); [reflexivity|]. reflexivity.
Qed.

(** ** What [Shutdown] does *)

Lemma alter_snoc {A : Type} (f : A -> A) (l : list A) (x : A) :
  alter f (length l) (l ++ [x]) = l ++ [f x].
Proof.
  replace (length l) with (length l + 0)%nat by lia.
  rewrite alter_app_r. reflexivity.
Qed.

(** [Shutdown], evaluated: it only ever goes through [s.srv]. *)
Lemma run_Shutdown (m : Machine) :
  run Shutdown m =
  if forallb is_idle (http.activeConn (srv (this m)))
  then Done no_error (Shutdown_returned m)
  else if decide (ShutdownTimeout (this m) <= 0)
  then Done DeadlineExceeded (Shutdown_returned m)
  else Waiting (Shutdown_polling (Ctx (length (ctxs m)))) (Shutdown_begun m).
Proof.
  unfold Shutdown, Shutdown_returned, Shutdown_begun, Shutdown_ctx.
  cbn [run perform]. unfold shutdown, shutdown_poll.
  cbn [load store this set_this set_ctxs record_call srv set_srv
       http.activeConn set_listeners set_inShutdown context.err
       context.deadline].
  destruct (forallb is_idle (http.activeConn (srv (this m)))).
  - cbn [run perform ctxs set_this set_ctxs record_call].
    rewrite alter_snoc. reflexivity.
  - unfold ctx_err. cbn [ctxs set_this set_ctxs record_call].
    rewrite list_lookup_middle by reflexivity. cbn [from_option context.err].
    destruct (decide (ShutdownTimeout (this m) <= 0)).
    + cbn [run perform ctxs set_this set_ctxs record_call].
      rewrite alter_snoc. reflexivity.
    + reflexivity.
Qed.

Lemma Shutdown_returned_heap (m : Machine) :
  heap (Shutdown_returned m) = heap m /\
  heap (Shutdown_begun m) = heap m.
Proof. split; reflexivity. Qed.

(** Whatever [Shutdown] comes to, it has not panicked and the allocated
    servers are as they were. *)
Lemma Shutdown_keeps_heap (m m' : Machine) :
  machine_of (run Shutdown m) = Some m' -> heap m' = heap m.
Proof.
  rewrite run_Shutdown.
  destruct (forallb _ _); [|destruct (decide _)]; cbn [machine_of];
    intros [= <-]; reflexivity.
Qed.

Lemma Shutdown_never_panics (m : Machine) :
  exists m', machine_of (run Shutdown m) = Some m'.
Proof.
  rewrite run_Shutdown.
  destruct (forallb _ _); [|destruct (decide _)]; cbn [machine_of]; eauto.
Qed.

Lemma Shutdown_logs_one_call (m : Machine) :
  http_calls_of (run Shutdown m) =
  called_Shutdown field_srv (Ctx (length (ctxs m))) :: calls m.
Proof.
  rewrite run_Shutdown.
  destruct (forallb _ _); [|destruct (decide _)]; reflexivity.
Qed.

(** The accept loop of a server stays blocked as long as the server's
    listener is open. *)
Lemma Serve_blocked (m : Machine) (n : nat) (v : http.Server)
    (ln : http.Listener) :
  heap m !! n = Some v ->
  http.listeners v !! 0%nat = Some ln ->
  http.closed ln = false ->
  run (Call (http_Serve (Alloc n) 0) Ret) m =
  Waiting (Call (http_Serve (Alloc n) 0) Ret) m.
Proof.
  intros Hv Hln Hopen. cbn [run perform]. unfold serve. cbn [load].
  rewrite Hv, Hln, Hopen. reflexivity.
Qed.

(** When [Run] blocks, it blocks in the accept loop of the server it has
    just allocated, whose only listener is open. *)
Lemma Run_waiting_inv (m : Machine) (p : prog error) (m1 : Machine) :
  run Run m = Waiting p m1 ->
  p = Call (http_Serve (Alloc (length (heap m))) 0) Ret /\
  m1 = Run_listening m.
Proof.
  rewrite run_Run.
  destruct (decide _); [discriminate|].
  destruct (loadable _ m); [|discriminate].
  intros [= <- <-]. split; reflexivity.
Qed.

Lemma Run_transport_TLS (s : Server) :
  CertFile s ≠ "" ∧ KeyFile s ≠ "" ->
  Run_transport s = http.Encrypted (CertFile s) (KeyFile s).
Proof.
  intros H. unfold Run_transport. destruct (decide _); [reflexivity|].
  contradiction.
Qed.

Lemma Run_transport_plain (s : Server) :
  CertFile s = "" ∨ KeyFile s = "" -> Run_transport s = http.Plaintext.
Proof.
  intros H. unfold Run_transport.
  destruct (decide _) as [[Hc Hk]|_]; [|reflexivity].
  destruct H; contradiction.
Qed.

(** The listeners of the server [Run] allocated, read off the machine. *)
Lemma Run_listening_listeners (m : Machine) :
  http.listeners <$> heap (Run_listening m) !! length (heap m) =
  Some [ {| http.laddr := Sprintf_s_d (Addr (this m)) (Port (this m));
            http.mode := Run_transport (this m);
            http.closed := false |} ].
Proof.
  unfold Run_listening. cbn [heap set_heap].
  rewrite list_lookup_middle by reflexivity. reflexivity.
Qed.

(** C6.  When both [CertFile] and [KeyFile] are non-empty, the one call
    [Run] makes is [ListenAndServeTLS] with those two files, and the
    listener it serves on is encrypted with them; when either is empty the
    call is [ListenAndServe] and the listener is plaintext.  In both cases
    [Run] does serve when the address can be listened on (and, for TLS, the
    key pair loads). *)
Theorem Run_selects_transport (m : Machine) :
  let s := this m in
  let r := Alloc (length (heap m)) in
  let addr := Sprintf_s_d (Addr s) (Port s) in
  (CertFile s ≠ "" ∧ KeyFile s ≠ "" ->
   http_calls_of (run Run m) =
     called_ListenAndServeTLS r (CertFile s) (KeyFile s) :: calls m /\
   (forall p m', run Run m = Waiting p m' ->
      http.listeners <$> heap m' !! length (heap m) =
      Some [ {| http.laddr := addr;
                http.mode := http.Encrypted (CertFile s) (KeyFile s);
                http.closed := false |} ]) /\
   (addr ∉ refused m -> (CertFile s, KeyFile s) ∈ keypairs m ->
    exists p m', run Run m = Waiting p m')) /\
  (CertFile s = "" ∨ KeyFile s = "" ->
   http_calls_of (run Run m) = called_ListenAndServe r :: calls m /\
   (forall p m', run Run m = Waiting p m' ->
      http.listeners <$> heap m' !! length (heap m) =
      Some [ {| http.laddr := addr; http.mode := http.Plaintext;
                http.closed := false |} ]) /\
   (addr ∉ refused m -> exists p m', run Run m = Waiting p m')).
Proof.
  intros s r addr. split.
  - intros Htls. pose proof (Run_transport_TLS s Htls) as Htr.
    repeat apply conj.
    + rewrite run_Run. unfold http_calls_of, Run_listening, Run_called,
        Run_call. fold s. rewrite Htr.
      destruct (decide _); [reflexivity|].
      destruct (loadable _ m); reflexivity.
    + intros p m' Hrun. apply Run_waiting_inv in Hrun as [_ ->].
      rewrite Run_listening_listeners. fold s. rewrite Htr. reflexivity.
    + intros Hok Hpair. rewrite run_Run. fold s addr. rewrite Htr.
      destruct (decide (addr ∈ refused m)); [contradiction|].
      cbn [loadable]. rewrite (bool_decide_eq_true_2 _ Hpair). eauto.
  - intros Hplain. pose proof (Run_transport_plain s Hplain) as Htr.
    repeat apply conj.
    + rewrite run_Run. unfold http_calls_of, Run_listening, Run_called,
        Run_call. fold s. rewrite Htr.
      destruct (decide _); reflexivity.
    + intros p m' Hrun. apply Run_waiting_inv in Hrun as [_ ->].
      rewrite Run_listening_listeners. fold s. rewrite Htr. reflexivity.
    + intros Hok. rewrite run_Run. fold s addr. rewrite Htr.
      destruct (decide (addr ∈ refused m)); [contradiction|].
      cbn [loadable]. eauto.
Qed.

(** C7.  [Run] never panics and always allocates a server of its own, at
    the next free address of the heap, on which it makes its one call.  That
    server has [Addr] equal to the configured address, a colon and the port
    in decimal, the configured handler, read timeout and write timeout, and
    an idle timeout of 60 seconds whatever the configuration; when [Run]
    serves, its only listener is bound to that [Addr]. *)
Theorem Run_builds_server (m : Machine) :
  let s := this m in
  let n := length (heap m) in
  exists m' v,
    machine_of (run Run m) = Some m' /\
    heap m' !! n = Some v /\
    http.Addr v = (Addr s +:+ ":" +:+ pretty (Port s))%string /\
    http.Handler v = Handler s /\
    http.ReadTimeout v = ReadTimeout s /\
    http.WriteTimeout v = WriteTimeout s /\
    http.IdleTimeout v = 60 * time.Second /\
    60 * time.Second = 60000000000 /\
    (http_calls_of (run Run m) = called_ListenAndServe (Alloc n) :: calls m \/
     http_calls_of (run Run m) =
       called_ListenAndServeTLS (Alloc n) (CertFile s) (KeyFile s)
       :: calls m) /\
    (forall p m1, run Run m = Waiting p m1 ->
       exists tr,
         http.listeners v =
         [ {| http.laddr := (Addr s +:+ ":" +:+ pretty (Port s))%string;
              http.mode := tr; http.closed := false |} ]).
Proof.
  intros s n.
  assert (Hcall :
    Run_call s (Alloc n) = called_ListenAndServe (Alloc n) \/
    Run_call s (Alloc n) =
      called_ListenAndServeTLS (Alloc n) (CertFile s) (KeyFile s)).
  { unfold Run_call, Run_transport. destruct (decide _); auto. }
  rewrite run_Run. fold s n.
  destruct (decide (Sprintf_s_d (Addr s) (Port s) ∈ refused m)) as [Hr|Hr];
    [|destruct (loadable (Run_transport s) m)].
  - exists (Run_called m), (Run_srv s). cbn [machine_of].
    repeat apply conj; try reflexivity.
    + unfold Run_called. cbn [heap record_call set_heap].
      apply list_lookup_middle. reflexivity.
    + unfold http_calls_of, Run_called. cbn. fold s n.
      destruct Hcall as [-> | ->]; auto.
    + intros p m1 [=].
  - exists (Run_listening m),
      (set_listeners
         [ {| http.laddr := Sprintf_s_d (Addr s) (Port s);
              http.mode := Run_transport s; http.closed := false |} ]
         (Run_srv s)).
    cbn [machine_of]. repeat apply conj; try reflexivity.
    + unfold Run_listening. cbn [heap set_heap].
      apply list_lookup_middle. reflexivity.
    + unfold http_calls_of, Run_listening, Run_called. cbn. fold s n.
      destruct Hcall as [-> | ->]; auto.
    + intros p m1 _. exists (Run_transport s). reflexivity.
  - exists (Run_called m), (Run_srv s). cbn [machine_of].
    repeat apply conj; try reflexivity.
    + unfold Run_called. cbn [heap record_call set_heap].
      apply list_lookup_middle. reflexivity.
    + unfold http_calls_of, Run_called. cbn. fold s n.
      destruct Hcall as [-> | ->]; auto.
    + intros p m1 [=].
Qed.

Lemma Run_selects_transport_witness :
  let tls := boot (NewServer [WithTLS "cert.pem" "key.pem"]) []
               [("cert.pem", "key.pem")] in
  let plain := boot (NewServer [WithPort 9000]) [] [] in
  (http_calls_of (run Run tls) =
     [called_ListenAndServeTLS (Alloc 0) "cert.pem" "key.pem"] /\
   exists p m', run Run tls = Waiting p m') /\
  (http_calls_of (run Run plain) = [called_ListenAndServe (Alloc 0)] /\
   exists p m', run Run plain = Waiting p m').
Proof.
  intros tls plain. split.
  - destruct (Run_selects_transport tls) as [H _].
    destruct H as (Hcalls & _ & Hserves).
    + split; discriminate.
    + split; [exact Hcalls|]. apply Hserves.
      * apply not_elem_of_nil.
      * apply list_elem_of_here.
  - destruct (Run_selects_transport plain) as [_ H].
    destruct H as (Hcalls & _ & Hserves).
    + left. reflexivity.
    + split; [exact Hcalls|]. apply Hserves. apply not_elem_of_nil.
Defined.

Lemma Run_builds_server_witness :
  exists m' v,
    run Run (boot (NewServer [WithAddr "localhost"]) [] []) =
      Waiting (Call (http_Serve (Alloc 0) 0) Ret) m' /\
    heap m' !! 0%nat = Some v /\
    http.Addr v = "localhost:8080" /\
    http.IdleTimeout v = 60000000000 /\
    http.listeners v =
      [ {| http.laddr := "localhost:8080"; http.mode := http.Plaintext;
           http.closed := false |} ].
Proof.
  destruct (Run_builds_server (boot (NewServer [WithAddr "localhost"]) [] []))
    as (m' & v & Hm & Hv & Haddr & _ & _ & _ & Hidle & _ & _ & Hln).
  exists m', v.
  assert (Hrun : run Run (boot (NewServer [WithAddr "localhost"]) [] []) =
                 Waiting (Call (http_Serve (Alloc 0) 0) Ret) m').
  { vm_compute in Hm. injection Hm as <-. vm_compute. reflexivity. }
  split; [exact Hrun|]. split; [exact Hv|].
  split; [exact Haddr|]. split; [exact Hidle|].
  destruct (Hln _ _ Hrun) as [tr Htr].
  vm_compute in Hm. injection Hm as <-. vm_compute in Hv.
  injection Hv as <-. exact eq_refl.
Defined.

(** The port is printed the way [%d] prints an [int]. *)
Example Sprintf_s_d_examples :
  Sprintf_s_d "localhost" 8080 = "localhost:8080" /\
  Sprintf_s_d "" 8080 = ":8080" /\
  Sprintf_s_d "0.0.0.0" (-1) = "0.0.0.0:-1" /\
  Sprintf_s_d "" 70000 = ":70000".
Proof. repeat split. Qed.

(** ** The shutdown triggers *)

(** No happening registers a channel, makes a call into [net/http] or
    changes how many channels there are. *)
Lemma happen_frame (h : happening) (m : Machine) :
  notify (happen h m) = notify m /\
  calls (happen h m) = calls m /\
  length (chans (happen h m)) = length (chans m).
Proof.
  destruct h as [dt|sig|i|r|r i]; cbn [happen].
  - repeat split.
  - repeat split. cbn [chans set_chans].
    induction (notify m) as [|[c sig'] reg IH]; cbn [relay]; [reflexivity|].
    destruct (decide (sig' = sig)); [|exact IH].
    rewrite length_alter. exact IH.
  - repeat split.
  - destruct (load r m) as [v|]; [|repeat split].
    destruct (existsb _ _); [|repeat split].
    destruct r; repeat split.
  - destruct (load r m) as [v|]; [|repeat split].
    destruct r; repeat split.
Qed.

Lemma happen_all_frame (hs : list happening) (m : Machine) :
  notify (happen_all hs m) = notify m /\
  calls (happen_all hs m) = calls m /\
  length (chans (happen_all hs m)) = length (chans m).
Proof.
  revert m. induction hs as [|h hs IH]; intros m; [repeat split|].
  change (happen_all (h :: hs) m) with (happen_all hs (happen h m)).
  destruct (IH (happen h m)) as (-> & -> & ->). apply happen_frame.
Qed.

Lemma happen_all_app (hs1 hs2 : list happening) (m : Machine) :
  happen_all (hs1 ++ hs2) m = happen_all hs2 (happen_all hs1 m).
Proof. unfold happen_all. apply foldl_app. Qed.

(** Relaying a signal to a channel that only [sig] is registered for. *)
Section Relay.

Variables (c : nat) (sig : Signal).

Lemma relay_other (sg : Signal) (reg : list (nat * Signal))
    (cs : list Chan) :
  only_for c sig reg -> sg <> sig -> relay sg reg cs !! c = cs !! c.
Proof.
  intros Hreg Hne. induction Hreg as [|[c' sg'] reg Hc _ IH];
    cbn [relay]; [reflexivity|].
  destruct (decide (sg' = sg)) as [->|_]; [|exact IH].
  rewrite list_lookup_alter_ne; [exact IH|].
  intros ->. apply Hne. apply Hc. reflexivity.
Qed.

Lemma relay_full (sg : Signal) (reg : list (nat * Signal))
    (cs : list Chan) :
  cs !! c = Some {| cap := 1; buf := [sig] |} ->
  relay sg reg cs !! c = Some {| cap := 1; buf := [sig] |}.
Proof.
  intros Hc. induction reg as [|[c' sg'] reg IH]; cbn [relay]; [exact Hc|].
  destruct (decide (sg' = sg)) as [_|_]; [|exact IH].
  destruct (decide (c' = c)) as [->|Hne].
  - rewrite list_lookup_alter_eq, IH. reflexivity.
  - rewrite list_lookup_alter_ne by exact Hne. exact IH.
Qed.

Lemma relay_first (reg : list (nat * Signal)) (cs : list Chan) :
  (c, sig) ∈ reg ->
  cs !! c = Some {| cap := 1; buf := [] |} ->
  relay sig reg cs !! c = Some {| cap := 1; buf := [sig] |}.
Proof.
  intros Hin Hc. induction reg as [|[c' sg'] reg IH]; cbn [relay].
  - inversion Hin.
  - destruct (decide ((c, sig) ∈ reg)) as [Hrest|Hrest].
    + specialize (IH Hrest).
      destruct (decide (sg' = sig)) as [_|_]; [|exact IH].
      destruct (decide (c' = c)) as [->|Hne].
      * rewrite list_lookup_alter_eq, IH. reflexivity.
      * rewrite list_lookup_alter_ne by exact Hne. exact IH.
    + apply elem_of_cons in Hin as [[= <- <-]|Hin]; [|contradiction].
      destruct (decide (sig = sig)) as [_|]; [|contradiction].
      rewrite list_lookup_alter_eq.
      assert (Hkeep : relay sig reg cs !! c = cs !! c).
      { clear IH. induction reg as [|[c' sg'] reg IH]; [reflexivity|].
        cbn [relay].
        apply not_elem_of_cons in Hrest as [Hhd Hrest].
        destruct (decide (sg' = sig)) as [->|_]; [|exact (IH Hrest)].
        rewrite list_lookup_alter_ne; [exact (IH Hrest)|].
        intros ->. apply Hhd. reflexivity. }
      rewrite Hkeep, Hc. reflexivity.
Qed.

End Relay.

Section SigTrigger.

Variables (c : nat) (sig : Signal).

Let empty : Chan := {| cap := 1; buf := [] |}.
Let full : Chan := {| cap := 1; buf := [sig] |}.

Lemma happen_chan_empty (h : happening) (m : Machine) :
  only_for c sig (notify m) -> h <> Deliver sig ->
  chans m !! c = Some empty -> chans (happen h m) !! c = Some empty.
Proof.
  intros Hreg Hh Hc. destruct h as [dt|sg|i|r|r i]; cbn [happen].
  - exact Hc.
  - cbn [chans set_chans]. rewrite (relay_other c sig); [exact Hc|exact Hreg|].
    intros ->. apply Hh. reflexivity.
  - exact Hc.
  - destruct (load r m) as [v|]; [|exact Hc].
    destruct (existsb _ _); [|exact Hc]. destruct r; exact Hc.
  - destruct (load r m) as [v|]; [|exact Hc]. destruct r; exact Hc.
Qed.

Lemma happen_chan_full (h : happening) (m : Machine) :
  chans m !! c = Some full -> chans (happen h m) !! c = Some full.
Proof.
  intros Hc. destruct h as [dt|sg|i|r|r i]; cbn [happen].
  - exact Hc.
  - cbn [chans set_chans]. apply relay_full. exact Hc.
  - exact Hc.
  - destruct (load r m) as [v|]; [|exact Hc].
    destruct (existsb _ _); [|exact Hc]. destruct r; exact Hc.
  - destruct (load r m) as [v|]; [|exact Hc]. destruct r; exact Hc.
Qed.

Lemma happen_all_chan_empty (hs : list happening) (m : Machine) :
  only_for c sig (notify m) -> Deliver sig ∉ hs ->
  chans m !! c = Some empty -> chans (happen_all hs m) !! c = Some empty.
Proof.
  revert m. induction hs as [|h hs IH]; intros m Hreg Hhs Hc; [exact Hc|].
  apply not_elem_of_cons in Hhs as [Hh Hhs].
  change (happen_all (h :: hs) m) with (happen_all hs (happen h m)).
  apply IH; [|exact Hhs|].
  - destruct (happen_frame h m) as (-> & _). exact Hreg.
  - apply happen_chan_empty; auto.
Qed.

Lemma happen_all_chan_full (hs : list happening) (m : Machine) :
  chans m !! c = Some full -> chans (happen_all hs m) !! c = Some full.
Proof.
  revert m. induction hs as [|h hs IH]; intros m Hc; [exact Hc|].
  change (happen_all (h :: hs) m) with (happen_all hs (happen h m)).
  apply IH. apply happen_chan_full. exact Hc.
Qed.

(** The waiting goroutine stays blocked while its channel is empty, and goes
    on into [Shutdown] once the signal is in it. *)
Lemma waiting_blocked (m : Machine) :
  chans m !! c = Some empty ->
  run (WithSigShutdown_waiting c) m = Waiting (WithSigShutdown_waiting c) m.
Proof.
  intros Hc. unfold WithSigShutdown_waiting. cbn [run perform].
  rewrite Hc. reflexivity.
Qed.

Lemma waiting_fires (m : Machine) :
  chans m !! c = Some full ->
  run (WithSigShutdown_waiting c) m = run Shutdown (received c m).
Proof.
  intros Hc. unfold WithSigShutdown_waiting. cbn [run perform].
  rewrite Hc. reflexivity.
Qed.

End SigTrigger.

Lemma run_WithSigShutdown (sig : Signal) (m : Machine) :
  run (WithSigShutdown sig) m =
  Waiting (WithSigShutdown_waiting (length (chans m)))
    (WithSigShutdown_registered sig m).
Proof.
  unfold WithSigShutdown. cbn [run perform chans set_chans set_notify].
  rewrite list_lookup_middle by reflexivity. reflexivity.
Qed.

Lemma registered_only_for (sig : Signal) (m : Machine) :
  registered_exist m ->
  only_for (length (chans m)) sig
    (notify (WithSigShutdown_registered sig m)).
Proof.
  intros Hwf. unfold only_for. cbn [notify WithSigShutdown_registered
    set_notify]. constructor; [reflexivity|].
  unfold registered_exist in Hwf.
  eapply Forall_impl; [exact Hwf|].
  intros reg Hlt Heq. cbn beta in Hlt. exfalso. lia.
Qed.

Lemma run_WithContextShutdown (ctx : ctx_ref) (m : Machine) :
  run (WithContextShutdown ctx) m =
  match ctx_err m ctx with
  | no_error => Waiting (WithContextShutdown ctx) m
  | _ => run Shutdown m
  end.
Proof.
  unfold WithContextShutdown. cbn [run perform].
  destruct (ctx_err m ctx); reflexivity.
Qed.

(** Cancelling a context makes it done. *)
Lemma Cancel_fires (i : nat) (m : Machine) :
  (i < length (ctxs m))%nat -> ctx_err (happen (Cancel i) m) (Ctx i) <> no_error.
Proof.
  intros Hi. destruct (lookup_lt_is_Some_2 _ _ Hi) as [x Hx].
  unfold ctx_err. cbn [happen ctxs set_ctxs].
  rewrite list_lookup_alter_eq, Hx. cbn.
  destruct (context.err x); discriminate.
Qed.

(** C8.  [WithSigShutdown sig] blocks on a fresh channel registered for
    [sig]; whatever else happens it stays blocked, having made no call, until
    [sig] is delivered; it then takes the signal out of the channel once and
    goes on exactly as [Shutdown] does from there, so that it makes one call
    into [s.srv.Shutdown] and returns what [Shutdown] returns.
    [WithContextShutdown ctx] stays blocked while [ctx] is not done and goes
    on exactly as [Shutdown] does once it is; cancelling [ctx] makes it
    done. *)
Theorem triggers_call_Shutdown_once
    (m : Machine) (sig : Signal) (ctx : ctx_ref)
    (before after : list happening) :
  registered_exist m ->
  Deliver sig ∉ before ->
  let c := length (chans m) in
  let m1 := WithSigShutdown_registered sig m in
  let m2 := happen_all before m1 in
  let m3 := happen_all (before ++ Deliver sig :: after) m1 in
  (run (WithSigShutdown sig) m = Waiting (WithSigShutdown_waiting c) m1 /\
   run (WithSigShutdown_waiting c) m2 =
     Waiting (WithSigShutdown_waiting c) m2 /\
   calls m2 = calls m /\
   run (WithSigShutdown_waiting c) m3 = run Shutdown (received c m3) /\
   http_calls_of (run (WithSigShutdown_waiting c) m3) =
     called_Shutdown field_srv (Ctx (length (ctxs m3))) :: calls m) /\
  (let m' := happen_all after m in
   (ctx_err m' ctx = no_error ->
    run (WithContextShutdown ctx) m' = Waiting (WithContextShutdown ctx) m' /\
    calls m' = calls m) /\
   (ctx_err m' ctx <> no_error ->
    run (WithContextShutdown ctx) m' = run Shutdown m' /\
    http_calls_of (run (WithContextShutdown ctx) m') =
      called_Shutdown field_srv (Ctx (length (ctxs m'))) :: calls m) /\
   (forall i, ctx = Ctx i -> (i < length (ctxs m'))%nat ->
      ctx_err (happen (Cancel i) m') ctx <> no_error)).
Proof.
  intros Hwf Hbefore c m1 m2 m3.
  assert (Hreg : only_for c sig (notify m1))
    by (apply registered_only_for; exact Hwf).
  assert (Hc1 : chans m1 !! c = Some {| cap := 1; buf := [] |}).
  { subst m1 c. cbn [WithSigShutdown_registered chans set_notify set_chans].
    apply list_lookup_middle. reflexivity. }
  assert (Hc2 : chans m2 !! c = Some {| cap := 1; buf := [] |}).
  { subst m2. apply (happen_all_chan_empty c sig); assumption. }
  assert (Hc3 : chans m3 !! c = Some {| cap := 1; buf := [sig] |}).
  { subst m3. rewrite happen_all_app.
    change (happen_all (Deliver sig :: after) (happen_all before m1))
      with (happen_all after (happen (Deliver sig) m2)).
    apply (happen_all_chan_full c sig). cbn [happen chans set_chans].
    apply relay_first; [|exact Hc2].
    subst m2. destruct (happen_all_frame before m1) as (-> & _).
    subst m1. cbn. apply list_elem_of_here. }
  split; [repeat apply conj|repeat apply conj].
  - apply run_WithSigShutdown.
  - apply waiting_blocked. exact Hc2.
  - subst m2. destruct (happen_all_frame before m1) as (_ & -> & _).
    reflexivity.
  - apply (waiting_fires c sig). exact Hc3.
  - rewrite (waiting_fires c sig) by exact Hc3.
    rewrite Shutdown_logs_one_call. cbn [received ctxs calls set_chans].
    subst m3.
    destruct (happen_all_frame (before ++ Deliver sig :: after) m1)
      as (_ & -> & _).
    reflexivity.
  - intros Herr. rewrite run_WithContextShutdown, Herr.
    split; [reflexivity|]. apply happen_all_frame.
  - intros Herr. rewrite run_WithContextShutdown.
    split.
    + destruct (ctx_err _ ctx); [contradiction|reflexivity..].
    + destruct (ctx_err _ ctx); [contradiction|..];
        rewrite Shutdown_logs_one_call;
        destruct (happen_all_frame after m) as (_ & -> & _); reflexivity.
  - intros i -> Hi. apply Cancel_fires. exact Hi.
Qed.

Lemma triggers_call_Shutdown_once_witness :
  let m := boot (NewServer []) [] [] in
  let m3 := happen_all ([Deliver 2; Tick 5] ++ Deliver 15 :: [Deliver 15])
              (WithSigShutdown_registered 15 m) in
  registered_exist m /\
  (Deliver 15 ∉ [Deliver 2; Tick 5]) /\
  run (WithSigShutdown_waiting 0) m3 = run Shutdown (received 0 m3) /\
  http_calls_of (run (WithSigShutdown_waiting 0) m3) =
    [called_Shutdown field_srv (Ctx 0)].
Proof.
  intros m m3.
  assert (Hwf : registered_exist m) by apply Forall_nil_2.
  assert (Hno : Deliver 15 ∉ [Deliver 2; Tick 5]).
  { intros H. repeat (apply elem_of_cons in H as [H|H]; [discriminate|]).
    inversion H. }
  destruct (triggers_call_Shutdown_once m 15 context_Background
              [Deliver 2; Tick 5] [Deliver 15] Hwf Hno)
    as [(_ & _ & _ & Hfire & Hcalls) _].
  split; [exact Hwf|]. split; [exact Hno|].
  split; [exact Hfire|exact Hcalls].
Defined.

(** ** [Shutdown] and the server [Run] started *)

(** The environment never closes a listener nor shuts a server down. *)
Lemma happen_keeps_listeners (h : happening) (m : Machine) (n : nat) :
  http.listeners <$> heap (happen h m) !! n = http.listeners <$> heap m !! n.
Proof.
  destruct h as [dt|sig|i|r|r i]; cbn [happen]; try reflexivity.
  - destruct (load r m) as [v|] eqn:Hv; [|reflexivity].
    destruct (existsb _ _); [|reflexivity].
    destruct r as [| |k]; try reflexivity. cbn [store heap set_heap load] in *.
    destruct (decide (k = n)) as [->|Hne].
    + rewrite list_lookup_insert_eq by (eapply lookup_lt_Some; exact Hv).
      rewrite Hv. reflexivity.
    + rewrite list_lookup_insert_ne by exact Hne. reflexivity.
  - destruct (load r m) as [v|] eqn:Hv; [|reflexivity].
    destruct r as [| |k]; try reflexivity. cbn [store heap set_heap load] in *.
    destruct (decide (k = n)) as [->|Hne].
    + rewrite list_lookup_insert_eq by (eapply lookup_lt_Some; exact Hv).
      rewrite Hv. reflexivity.
    + rewrite list_lookup_insert_ne by exact Hne. reflexivity.
Qed.

Lemma happen_all_keeps_listeners (hs : list happening) (m : Machine)
    (n : nat) :
  http.listeners <$> heap (happen_all hs m) !! n =
  http.listeners <$> heap m !! n.
Proof.
  revert m. induction hs as [|h hs IH]; intros m; [reflexivity|].
  change (happen_all (h :: hs) m) with (happen_all hs (happen h m)).
  rewrite IH. apply happen_keeps_listeners.
Qed.

Lemma Serve_stays_blocked (m : Machine) (n : nat) (ln : http.Listener) :
  http.listeners <$> heap m !! n = Some [ln] ->
  http.closed ln = false ->
  run (Call (http_Serve (Alloc n) 0) Ret) m =
  Waiting (Call (http_Serve (Alloc n) 0) Ret) m.
Proof.
  intros Hln Hopen. destruct (heap m !! n) as [v|] eqn:Hv; [|discriminate].
  injection Hln as Hln. eapply Serve_blocked; [exact Hv| |exact Hopen].
  rewrite Hln. reflexivity.
Qed.

(** The embedded [s.srv] is never listened on: the environment, [Run] and
    [Shutdown] all leave it without listener and without connection. *)
Lemma field_srv_unused_boot (bs : list built) (no_listen : list string)
    (pairs : list (string * string)) :
  field_srv_unused (boot (NewServer (option_of <$> bs)) no_listen pairs).
Proof.
  unfold field_srv_unused, boot, NewServer. cbn [this].
  rewrite options_keep_srv. split; reflexivity.
Qed.

Lemma field_srv_unused_happen (h : happening) (m : Machine) :
  field_srv_unused m -> field_srv_unused (happen h m).
Proof.
  unfold field_srv_unused. intros [Hl Ha].
  destruct h as [dt|sig|i|r|r i]; cbn [happen]; try (split; assumption).
  - destruct (load r m) as [v|] eqn:Hv; [|split; assumption].
    destruct (existsb _ _) eqn:Hopen; [|split; assumption].
    destruct r as [| |k]; try (split; assumption).
    cbn [load] in Hv. injection Hv as <-. rewrite Hl in Hopen. discriminate.
  - destruct (load r m) as [v|] eqn:Hv; [|split; assumption].
    destruct r as [| |k]; try (split; assumption).
    cbn [load] in Hv. injection Hv as <-. cbn. rewrite Ha. split; auto.
Qed.

Lemma field_srv_unused_Run (m m' : Machine) :
  machine_of (run Run m) = Some m' ->
  field_srv_unused m -> field_srv_unused m'.
Proof.
  rewrite run_Run.
  destruct (decide _); [|destruct (loadable _ m)]; cbn [machine_of];
    intros [= <-] H; exact H.
Qed.

Lemma field_srv_unused_Shutdown (m m' : Machine) :
  machine_of (run Shutdown m) = Some m' ->
  field_srv_unused m -> field_srv_unused m'.
Proof.
  rewrite run_Shutdown. unfold field_srv_unused.
  destruct (forallb _ _); [|destruct (decide _)]; cbn [machine_of];
    intros [= <-] [Hl Ha]; cbn; rewrite Hl, Ha; split; reflexivity.
Qed.

(** C1 (what the code does).  Once [Run] is serving, [Shutdown] completes
    without touching the server [Run] allocated: that server is not marked
    as shutting down, its listener stays open, and [Run] stays blocked
    whatever happens afterwards.  The server [Shutdown] goes through is the
    embedded [s.srv], which [Run] never assigns. *)
Theorem Shutdown_leaves_Run_serving (m : Machine) (p : prog error)
    (m1 : Machine) (later : list happening) :
  run Run m = Waiting p m1 ->
  exists m2,
    machine_of (run Shutdown m1) = Some m2 /\
    (field_srv_unused m -> run Shutdown m1 = Done no_error m2) /\
    http_calls_of (run Shutdown m1) =
      called_Shutdown field_srv (Ctx (length (ctxs m1))) :: calls m1 /\
    heap m2 = heap m1 /\
    (exists ln,
        http.listeners <$> heap m2 !! length (heap m) = Some [ln] /\
        http.closed ln = false) /\
    run p (happen_all later m2) = Waiting p (happen_all later m2).
Proof.
  intros Hrun. apply Run_waiting_inv in Hrun as [-> ->].
  destruct (Shutdown_never_panics (Run_listening m)) as [m2 Hm2].
  pose proof (Shutdown_keeps_heap _ _ Hm2) as Hheap.
  exists m2. split; [exact Hm2|].
  split.
  { intros [_ Ha]. revert Hm2. rewrite run_Shutdown.
    change (this (Run_listening m)) with (this m). rewrite Ha.
    cbn [forallb machine_of]. intros [= <-]. reflexivity. }
  split; [apply Shutdown_logs_one_call|].
  split; [exact Hheap|].
  assert (Hln : http.listeners <$> heap m2 !! length (heap m) =
                Some [ {| http.laddr :=
                            Sprintf_s_d (Addr (this m)) (Port (this m));
                          http.mode := Run_transport (this m);
                          http.closed := false |} ]).
  { rewrite Hheap. apply Run_listening_listeners. }
  split; [eexists; split; [exact Hln|]; reflexivity|].
  eapply Serve_stays_blocked;
    [rewrite happen_all_keeps_listeners; exact Hln|reflexivity].
Qed.

Lemma Shutdown_leaves_Run_serving_witness :
  let m := boot (NewServer []) [] [] in
  exists p m1 m2,
    run Run m = Waiting p m1 /\
    run Shutdown m1 = Done no_error m2 /\
    http.listeners <$> heap m2 !! 0%nat =
      Some [ {| http.laddr := ":8080"; http.mode := http.Plaintext;
                http.closed := false |} ] /\
    run p (happen_all [Tick (20 * time.Second)] m2) =
      Waiting p (happen_all [Tick (20 * time.Second)] m2).
Proof.
  intros m.
  assert (Hrun : run Run m =
                 Waiting (Call (http_Serve (Alloc 0) 0) Ret)
                   (Run_listening m)) by (vm_compute; reflexivity).
  destruct (Shutdown_leaves_Run_serving m _ _ [Tick (20 * time.Second)] Hrun)
    as (m2 & Hm2 & Hdone & _ & Hheap & _ & Hblocked).
  exists (Call (http_Serve (Alloc 0) 0) Ret), (Run_listening m), m2.
  split; [exact Hrun|].
  split; [apply Hdone; split; reflexivity|].
  split; [rewrite Hheap; vm_compute; reflexivity|exact Hblocked].
Defined.

(** C2 (what the code does).  On a [Server] fresh from [NewServer], on
    which [Run] was never called, [Shutdown] does not panic: it goes through
    the zero-valued [s.srv], makes one call into it, and returns nil. *)
Theorem Shutdown_before_Run_returns_nil (bs : list built)
    (no_listen : list string) (pairs : list (string * string)) :
  let m := boot (NewServer (option_of <$> bs)) no_listen pairs in
  run Shutdown m <> Panicked /\
  run Shutdown m = Done no_error (Shutdown_returned m) /\
  calls (Shutdown_returned m) = [called_Shutdown field_srv (Ctx 0)] /\
  heap (Shutdown_returned m) = [].
Proof.
  intros m.
  assert (Hrun : run Shutdown m = Done no_error (Shutdown_returned m)).
  { rewrite run_Shutdown.
    destruct (field_srv_unused_boot bs no_listen pairs) as [_ Ha].
    fold m in Ha. rewrite Ha. reflexivity. }
  split; [rewrite Hrun; discriminate|].
  split; [exact Hrun|]. split; reflexivity.
Qed.

(** In the machine a method called through a nil [*http.Server] does
    panic; [Shutdown] never makes such a call, [s.srv] being a value. *)
Example nil_receiver_panics (m : Machine) :
  run (Call (http_Shutdown nil_srv context_Background) Ret) m = Panicked.
Proof. reflexivity. Qed.

(** C3 (what the code does).  As long as the embedded [s.srv] has no
    connection of its own, a state that the environment, [Run] and
    [Shutdown] all preserve, [Shutdown] returns nil at once: the clock has
    not moved, and the servers [Run] allocated keep their connections, busy
    or not. *)
Theorem Shutdown_returns_at_once (m : Machine) :
  http.activeConn (srv (this m)) = [] ->
  run Shutdown m = Done no_error (Shutdown_returned m) /\
  clock (Shutdown_returned m) = clock m /\
  heap (Shutdown_returned m) = heap m.
Proof.
  intros Ha. rewrite run_Shutdown, Ha. repeat split.
Qed.

(** The scenario of the specification: a shutdown timeout of 100 ms, [Run]
    serving, one request in flight; [Shutdown] returns nil at time 0 and the
    request is still being served. *)
Lemma Shutdown_returns_at_once_witness :
  let m := boot (NewServer [WithShutdownTimeout (100 * time.Millisecond)])
             [] [] in
  exists p m1 m2,
    run Run m = Waiting p m1 /\
    run Shutdown (happen (Accept (Alloc 0)) m1) = Done no_error m2 /\
    clock m2 = 0 /\
    http.activeConn <$> heap m2 !! 0%nat = Some [http.StateActive] /\
    http.inShutdown <$> heap m2 !! 0%nat = Some false.
Proof.
  intros m.
  exists (Call (http_Serve (Alloc 0) 0) Ret), (Run_listening m),
    (Shutdown_returned (happen (Accept (Alloc 0)) (Run_listening m))).
  destruct (Shutdown_returns_at_once
              (happen (Accept (Alloc 0)) (Run_listening m)) eq_refl)
    as (Hrun & Hclock & Hheap).
  split; [vm_compute; reflexivity|].
  split; [exact Hrun|].
  split; [rewrite Hclock; reflexivity|].
  rewrite Hheap. split; vm_compute; reflexivity.
Defined.

(** ** The collaborators, for comparison

    Shutting down the server that [Run] allocated is what releases [Run],
    and what waits for a request in flight. *)

Example shutdown_of_the_serving_server_releases_Run :
  let m1 := Run_listening (boot (NewServer []) [] []) in
  match run (Shutdown_through (Alloc 0) (15 * time.Second)) m1 with
  | Done e m2 =>
      e = no_error /\
      run (Call (http_Serve (Alloc 0) 0) Ret) m2 = Done ErrServerClosed m2
  | _ => False
  end.
Proof. vm_compute. split; reflexivity. Qed.

Example shutdown_of_the_serving_server_waits :
  let d := 100 * time.Millisecond in
  let m1 := happen (Accept (Alloc 0))
              (Run_listening (boot (NewServer [WithShutdownTimeout d]) [] []))
  in
  match run (Shutdown_through (Alloc 0) d) m1 with
  | Waiting q m2 =>
      (exists m3, run q (happen (Tick d) m2) = Done DeadlineExceeded m3) /\
      (exists m4, run q (happen (Finish (Alloc 0) 0) m2) = Done no_error m4)
  | _ => False
  end.
Proof. cbv zeta. vm_compute run at 1. split; eexists; reflexivity. Qed.

(** * Further properties of the configuration builder *)

(** A [Server] is its eight configuration fields and its [srv]. *)
Lemma Server_ext (s s' : Server) :
  (forall f, read f s = read f s') -> srv s = srv s' -> s = s'.
Proof.
  intros H Hsrv. destruct s, s'. cbn in *.
  pose proof (H F_Port) as [= ->]. pose proof (H F_Addr) as [= ->].
  pose proof (H F_Handler) as [= ->].
  pose proof (H F_WriteTimeout) as [= ->].
  pose proof (H F_ReadTimeout) as [= ->].
  pose proof (H F_CertFile) as [= ->]. pose proof (H F_KeyFile) as [= ->].
  pose proof (H F_ShutdownTimeout) as [= ->]. subst. reflexivity.
Qed.

Lemma option_frame (b : built) (f : field) (s : Server) :
  f ∉ targets b -> read f (option_of b s) = read f s.
Proof.
  intros Hf. destruct b, f; try reflexivity;
    exfalso; apply Hf; apply (bool_decide_unpack _); reflexivity.
Qed.

Lemma option_overwrites (b : built) (f : field) (s s' : Server) :
  f ∈ targets b -> read f (option_of b s) = read f (option_of b s').
Proof.
  intros Hf. destruct b, f; try reflexivity;
    exfalso; revert Hf; apply (bool_decide_eq_false_1 _); reflexivity.
Qed.

Lemma option_keeps_srv (b : built) (s : Server) :
  srv (option_of b s) = srv s.
Proof. destruct b; reflexivity. Qed.

(** Two sequences of options take states that agree on a field to states
    that agree on it. *)
Lemma apply_opts_agree (f : field) (bs : list built) (s s' : Server) :
  read f s = read f s' ->
  read f (apply_opts (option_of <$> bs) s) =
  read f (apply_opts (option_of <$> bs) s').
Proof.
  revert s s'. induction bs as [|b bs IH]; intros s s' H; [exact H|].
  cbn [fmap list_fmap apply_opts]. apply IH.
  destruct (decide (f ∈ targets b)) as [Hin|Hout].
  - apply option_overwrites. exact Hin.
  - rewrite !option_frame by exact Hout. exact H.
Qed.

Lemma options_commute (b1 b2 : built) (s : Server) :
  (forall f, f ∈ targets b1 -> f ∉ targets b2) ->
  option_of b1 (option_of b2 s) = option_of b2 (option_of b1 s).
Proof.
  intros Hdis. apply Server_ext; [|rewrite !option_keeps_srv; reflexivity].
  intros f. destruct (decide (f ∈ targets b1)) as [H1|H1].
  - rewrite (option_frame b2 f (option_of b1 s)) by (apply Hdis; exact H1).
    apply option_overwrites. exact H1.
  - rewrite (option_frame b1 f (option_of b2 s)) by exact H1.
    destruct (decide (f ∈ targets b2)) as [H2|H2].
    + apply option_overwrites. exact H2.
    + rewrite !option_frame by assumption. reflexivity.
Qed.

Lemma apply_opts_permutation (bs bs' : list built) :
  bs ≡ₚ bs' -> NoDup (bs ≫= targets) ->
  forall s, apply_opts (option_of <$> bs) s = apply_opts (option_of <$> bs') s.
Proof.
  induction 1 as [|b l l' Hperm IH|b1 b2 l|l l' l'' H1 IH1 H2 IH2];
    intros Hnd s.
  - reflexivity.
  - cbn [fmap list_fmap apply_opts]. apply IH.
    cbn [mbind list_bind] in Hnd. apply NoDup_app in Hnd as (_ & _ & Hnd).
    exact Hnd.
  - cbn [fmap list_fmap apply_opts]. f_equal. symmetry.
    apply options_commute. intros f Hf.
    cbn [mbind list_bind] in Hnd. apply NoDup_app in Hnd as (_ & Hdis & _).
    intros Hf2. apply (Hdis f Hf). apply elem_of_app. left. exact Hf2.
  - rewrite IH1 by exact Hnd. apply IH2.
    rewrite <- H1. exact Hnd.
Qed.

(** X1.  Every option obtained from a builder writes the fields listed for
    it and nothing else: it leaves [srv] and every other field as they were,
    and what it writes does not depend on the configuration it is applied
    to. *)
Theorem builder_writes_only_its_targets
    (b : built) (f : field) (s s' : Server) :
  srv (option_of b s) = srv s /\
  (f ∉ targets b -> read f (option_of b s) = read f s) /\
  (f ∈ targets b -> read f (option_of b s) = read f (option_of b s')).
Proof.
  split; [apply option_keeps_srv|].
  split; [apply option_frame|apply option_overwrites].
Qed.

Lemma builder_writes_only_its_targets_witness :
  let b := by_WithTLS "cert.pem" "key.pem" in
  let s := NewServer [WithPort 9000] in
  let s' := NewServer [WithTLS "old.pem" "old.key"] in
  read F_Port (option_of b s) = V_int 9000 /\
  read F_KeyFile (option_of b s) = read F_KeyFile (option_of b s').
Proof.
  intros b s s'. split.
  - destruct (builder_writes_only_its_targets b F_Port s s')
      as (_ & Hframe & _).
    rewrite Hframe; [reflexivity|].
    apply (bool_decide_eq_false_1 _). reflexivity.
  - destruct (builder_writes_only_its_targets b F_KeyFile s s')
      as (_ & _ & Hwrite).
    apply Hwrite. apply (bool_decide_unpack _). reflexivity.
Defined.

(** X2.  When no field is targeted by two options of a sequence, the order
    of the options does not matter: [NewServer] returns the same [Server]
    for every permutation of the sequence. *)
Theorem NewServer_order_irrelevant (bs bs' : list built) :
  NoDup (bs ≫= targets) ->
  bs ≡ₚ bs' ->
  NewServer (option_of <$> bs) = NewServer (option_of <$> bs').
Proof.
  intros Hnd Hperm. unfold NewServer.
  apply apply_opts_permutation; assumption.
Qed.

Lemma NewServer_order_irrelevant_witness :
  NewServer [WithPort 9000; WithTLS "c.pem" "c.key"; WithAddr "localhost"] =
  NewServer [WithAddr "localhost"; WithPort 9000; WithTLS "c.pem" "c.key"].
Proof.
  apply (NewServer_order_irrelevant
           [by_WithPort 9000; by_WithTLS "c.pem" "c.key";
            by_WithAddr "localhost"]
           [by_WithAddr "localhost"; by_WithPort 9000;
            by_WithTLS "c.pem" "c.key"]).
  - apply (bool_decide_unpack _). reflexivity.
  - etransitivity; [apply perm_skip, perm_swap|apply perm_swap].
Defined.

(** X3.  An option is without effect when a later option of the sequence
    writes every field it writes: dropping it does not change the [Server]
    that [NewServer] returns, whatever options stand before, between and
    after the two. *)
Theorem NewServer_overridden_option_dropped
    (b1 b2 : built) (xs ys zs : list built) :
  targets b1 ⊆ targets b2 ->
  NewServer (option_of <$> (xs ++ b1 :: ys ++ b2 :: zs)) =
  NewServer (option_of <$> (xs ++ ys ++ b2 :: zs)).
Proof.
  intros Hsub. unfold NewServer.
  rewrite !fmap_app, !apply_opts_app.
  cbn [fmap list_fmap apply_opts].
  rewrite !fmap_app, !apply_opts_app.
  cbn [fmap list_fmap apply_opts].
  f_equal.
  set (sx := apply_opts (option_of <$> xs) defaults).
  apply Server_ext.
  - intros f. destruct (decide (f ∈ targets b2)) as [H2|H2].
    + apply option_overwrites. exact H2.
    + rewrite !option_frame by exact H2.
      apply apply_opts_agree. apply option_frame.
      intros H1. apply H2. apply Hsub. exact H1.
  - rewrite !option_keeps_srv, !options_keep_srv, option_keeps_srv.
    reflexivity.
Qed.

Lemma NewServer_overridden_option_dropped_witness :
  NewServer [WithAddr "a"; WithHandler (user_Handler 1); WithPort 1;
             WithCorsHandler (user_Handler 2)
               {| cors.AllowedOrigins := []; cors.AllowedMethods := [];
                  cors.AllowedHeaders := []; cors.AllowCredentials := true |};
             WithPort 2] =
  NewServer [WithAddr "a"; WithPort 1;
             WithCorsHandler (user_Handler 2)
               {| cors.AllowedOrigins := []; cors.AllowedMethods := [];
                  cors.AllowedHeaders := []; cors.AllowCredentials := true |};
             WithPort 2].
Proof.
  apply (NewServer_overridden_option_dropped
           (by_WithHandler (user_Handler 1))
           (by_WithCorsHandler (user_Handler 2)
              {| cors.AllowedOrigins := []; cors.AllowedMethods := [];
                 cors.AllowedHeaders := []; cors.AllowCredentials := true |})
           [by_WithAddr "a"] [by_WithPort 1] [by_WithPort 2]).
  intros f Hf. exact Hf.
Defined.

(** * Further properties of the lifecycle *)

(** ** The forms a goroutine of the package takes *)

Lemma run_Serve (r : srv_ref) (l : nat) (m : Machine) :
  run (Call (http_Serve r l) Ret) m = Panicked \/
  (exists e, run (Call (http_Serve r l) Ret) m = Done e m) \/
  run (Call (http_Serve r l) Ret) m = Waiting (Call (http_Serve r l) Ret) m.
Proof.
  cbn [run perform]. unfold serve.
  destruct (load r m) as [v|]; [|auto].
  destruct (http.listeners v !! l) as [ln|]; [|cbn; eauto].
  destruct (http.closed ln); cbn; eauto.
Qed.

Lemma run_Shutdown_polling (ctx : ctx_ref) (m : Machine) :
  let m1 := store field_srv
              (set_activeConn
                 (filter (fun c => is_idle c = false)
                    (http.activeConn (srv (this m))))
                 (srv (this m))) m in
  run (Shutdown_polling ctx) m = Waiting (Shutdown_polling ctx) m1 \/
  exists e m2,
    run (Shutdown_polling ctx) m = Done e m2 /\
    this m2 = this m1 /\ heap m2 = heap m /\
    (forallb is_idle (http.activeConn (srv (this m))) = true -> e = no_error).
Proof.
  intros m1. unfold Shutdown_polling. cbn [run perform].
  unfold shutdown_poll. cbn [load]. fold m1.
  destruct (forallb is_idle _).
  - right. cbn [run perform].
    destruct ctx as [|i]; cbn [run]; eexists _, _;
      (split; [reflexivity|]); repeat split.
  - destruct (ctx_err m1 ctx) eqn:E; [left; reflexivity|..];
      right; cbn [run perform];
      destruct ctx as [|i]; cbn [run]; eexists _, _;
      (split; [reflexivity|]); repeat split; discriminate.
Qed.

Lemma run_waiting (c : nat) (m : Machine) :
  run (WithSigShutdown_waiting c) m = Waiting (WithSigShutdown_waiting c) m \/
  exists m1,
    run (WithSigShutdown_waiting c) m = run Shutdown m1 /\
    this m1 = this m /\ heap m1 = heap m /\ notify m1 = notify m /\
    ctxs m1 = ctxs m /\ calls m1 = calls m /\
    length (chans m1) = length (chans m).
Proof.
  unfold WithSigShutdown_waiting. cbn [run perform].
  destruct (chans m !! c) as [[n [|sig rest]]|]; [left; reflexivity| |
    left; reflexivity].
  right. eexists. split; [reflexivity|]. repeat split.
  cbn [chans set_chans]. apply length_insert.
Qed.

Lemma package_prog_forms (p : prog error) :
  package_prog p ->
  p = Run \/ p = Shutdown \/
  (exists sig, p = WithSigShutdown sig) \/
  (exists ctx, p = WithContextShutdown ctx) \/
  (exists n, p = Call (http_Serve (Alloc n) 0) Ret) \/
  (exists ctx, p = Shutdown_polling ctx) \/
  (exists c, p = WithSigShutdown_waiting c).
Proof.
  assert (HS : forall m p' m', run Shutdown m = Waiting p' m' ->
                 exists ctx, p' = Shutdown_polling ctx).
  { intros m p' m'. rewrite run_Shutdown.
    destruct (forallb _ _); [discriminate|].
    destruct (decide _); [discriminate|]. intros [= <- _]. eauto. }
  induction 1 as [| |sig|ctx|p p' m m' Hp IH Hrun]; eauto 10.
  destruct IH as [->|[->|[[sig ->]|[[ctx ->]|[[n ->]|[[ctx ->]|[c ->]]]]]]].
  - apply Run_waiting_inv in Hrun as [-> _]. eauto 10.
  - apply HS in Hrun. eauto 10.
  - rewrite run_WithSigShutdown in Hrun. injection Hrun as <- _. eauto 10.
  - rewrite run_WithContextShutdown in Hrun.
    destruct (ctx_err m ctx);
      [injection Hrun as <- _; eauto 10|apply HS in Hrun; eauto 10..].
  - destruct (run_Serve (Alloc n) 0 m) as [E|[[e E]|E]];
      rewrite E in Hrun; [discriminate..|].
    injection Hrun as <- _. eauto 10.
  - destruct (run_Shutdown_polling ctx m) as [E|(e & m2 & E & _)];
      rewrite E in Hrun; [|discriminate].
    injection Hrun as <- _. eauto 10.
  - destruct (run_waiting c m) as [E|(m1 & E & _)]; rewrite E in Hrun.
    + injection Hrun as <- _. eauto 10.
    + apply HS in Hrun. eauto 10.
Qed.

(** ** What a step of a goroutine changes *)

Lemma Shutdown_moves (m m' : Machine) :
  machine_of (run Shutdown m) = Some m' -> moves m m'.
Proof.
  rewrite run_Shutdown.
  destruct (forallb _ _); [|destruct (decide _)]; cbn [machine_of];
    intros [= <-]; apply moves_stop; reflexivity.
Qed.

Lemma package_step_moves (p : prog error) (m m' : Machine) :
  package_prog p -> machine_of (run p m) = Some m' -> moves m m'.
Proof.
  intros Hp Hrun.
  destruct (package_prog_forms p Hp)
    as [->|[->|[[sig ->]|[[ctx ->]|[[n ->]|[[ctx ->]|[c ->]]]]]]].
  - rewrite run_Run in Hrun.
    destruct (decide _); [|destruct (loadable _ m)]; cbn [machine_of] in Hrun;
      injection Hrun as <-; eapply moves_alloc; reflexivity.
  - apply Shutdown_moves. exact Hrun.
  - rewrite run_WithSigShutdown in Hrun. injection Hrun as <-.
    apply moves_nothing; reflexivity.
  - rewrite run_WithContextShutdown in Hrun.
    destruct (ctx_err m ctx);
      [injection Hrun as <-; apply moves_nothing; reflexivity
      |apply Shutdown_moves; exact Hrun..].
  - destruct (run_Serve (Alloc n) 0 m) as [E|[[e E]|E]];
      rewrite E in Hrun; [discriminate|..];
      injection Hrun as <-; apply moves_nothing; reflexivity.
  - destruct (run_Shutdown_polling ctx m) as [E|(e & m2 & E & Hthis & Hheap & _)];
      rewrite E in Hrun; injection Hrun as <-.
    + apply moves_drop_idle; reflexivity.
    + apply moves_drop_idle; [exact Hthis|exact Hheap].
  - destruct (run_waiting c m) as [E|(m1 & E & Hthis & Hheap & _)];
      rewrite E in Hrun.
    + injection Hrun as <-. apply moves_nothing; reflexivity.
    + apply Shutdown_moves in Hrun.
      destruct Hrun as [H1 H2|v H1 H2|H1 H2|H1 H2];
        rewrite Hthis in H1; rewrite Hheap in H2.
      * apply moves_nothing; assumption.
      * eapply moves_alloc; eassumption.
      * apply moves_stop; assumption.
      * apply moves_drop_idle; assumption.
Qed.

Lemma moves_keeps_unused (m m' : Machine) :
  moves m m' -> field_srv_unused m -> field_srv_unused m'.
Proof.
  unfold field_srv_unused.
  intros [H1 _|v H1 _|H1 _|H1 _] [Hl Ha]; rewrite H1; cbn;
    rewrite ?Hl, ?Ha; split; reflexivity.
Qed.

Lemma moves_keeps_listeners (m m' : Machine) (n : nat)
    (l : list http.Listener) :
  moves m m' ->
  http.listeners <$> heap m !! n = Some l ->
  http.listeners <$> heap m' !! n = Some l.
Proof.
  intros [_ H2|v _ H2|_ H2|_ H2] Hl; rewrite H2; try exact Hl.
  rewrite lookup_app_l; [exact Hl|].
  destruct (heap m !! n) as [x|] eqn:E; [|discriminate].
  eapply lookup_lt_Some. exact E.
Qed.

Lemma moves_keeps_config (m m' : Machine) (f : field) :
  moves m m' -> read f (this m') = read f (this m).
Proof.
  intros [H1 _|v H1 _|H1 _|H1 _]; rewrite H1; destruct f; reflexivity.
Qed.

Lemma happen_keeps_config (h : happening) (m : Machine) (f : field) :
  read f (this (happen h m)) = read f (this m).
Proof.
  destruct h as [dt|sig|i|r|r i]; cbn [happen]; try reflexivity.
  - destruct (load r m) as [v|]; [|reflexivity].
    destruct (existsb _ _); [|reflexivity].
    destruct r; destruct f; reflexivity.
  - destruct (load r m) as [v|]; [|reflexivity].
    destruct r; destruct f; reflexivity.
Qed.

Lemma reachable_unused (m0 m : Machine) :
  reachable m0 m -> field_srv_unused m0 -> field_srv_unused m.
Proof.
  induction 1 as [|h m Hm IH|p m m' Hm IH Hp Hrun]; intros H0.
  - exact H0.
  - apply field_srv_unused_happen. apply IH. exact H0.
  - eapply moves_keeps_unused; [|apply IH; exact H0].
    eapply package_step_moves; eassumption.
Qed.

Lemma reachable_listeners (m0 m : Machine) (n : nat)
    (l : list http.Listener) :
  reachable m0 m ->
  http.listeners <$> heap m0 !! n = Some l ->
  http.listeners <$> heap m !! n = Some l.
Proof.
  induction 1 as [|h m Hm IH|p m m' Hm IH Hp Hrun]; intros H0.
  - exact H0.
  - rewrite happen_keeps_listeners. apply IH. exact H0.
  - eapply moves_keeps_listeners; [|apply IH; exact H0].
    eapply package_step_moves; eassumption.
Qed.

(** X4.  In every machine that the lifecycle methods and the environment
    lead to from a freshly constructed [Server], in any interleaving,
    [Shutdown] returns nil without blocking: it never returns an error and
    never panics, whatever the shutdown timeout and whatever requests the
    servers started by [Run] are handling. *)
Theorem Shutdown_always_returns_nil
    (bs : list built) (no_listen : list string)
    (pairs : list (string * string)) (m : Machine) :
  reachable (boot (NewServer (option_of <$> bs)) no_listen pairs) m ->
  run Shutdown m = Done no_error (Shutdown_returned m).
Proof.
  intros Hreach.
  destruct (reachable_unused _ _ Hreach (field_srv_unused_boot _ _ _))
    as [_ Ha].
  rewrite run_Shutdown, Ha. reflexivity.
Qed.

(** X5.  Once [Run] is serving it never returns: in every machine that the
    lifecycle methods, [Shutdown] and the triggers included, and the
    environment lead to from there, the goroutine in [Run] is still
    blocked. *)
Theorem Run_never_returns_once_serving
    (m : Machine) (p : prog error) (m1 m2 : Machine) :
  run Run m = Waiting p m1 ->
  reachable m1 m2 ->
  run p m2 = Waiting p m2.
Proof.
  intros Hrun Hreach. apply Run_waiting_inv in Hrun as [-> ->].
  eapply Serve_stays_blocked;
    [eapply reachable_listeners;
       [exact Hreach|apply Run_listening_listeners]
    |reflexivity].
Qed.

(** X6.  [Run] leaves [*s] exactly as it found it, [s.srv] included, and no
    lifecycle method and no event ever changes a configuration field of
    [*s]. *)
Theorem lifecycle_keeps_configuration :
  (forall m m', machine_of (run Run m) = Some m' -> this m' = this m) /\
  (forall m0 m f, reachable m0 m -> read f (this m) = read f (this m0)).
Proof.
  split.
  - intros m m'. rewrite run_Run.
    destruct (decide _); [|destruct (loadable _ m)]; cbn [machine_of];
      intros [= <-]; reflexivity.
  - intros m0 m f. induction 1 as [|h m Hm IH|p m m' Hm IH Hp Hrun].
    + reflexivity.
    + rewrite happen_keeps_config. exact IH.
    + rewrite <- IH. apply moves_keeps_config.
      eapply package_step_moves; eassumption.
Qed.

Lemma Shutdown_always_returns_nil_witness :
  let m0 := boot (NewServer [WithShutdownTimeout (-1)]) [] [] in
  let m := happen (Accept (Alloc 0)) (Run_listening m0) in
  run Shutdown m = Done no_error (Shutdown_returned m) /\
  http.activeConn <$> heap m !! 0%nat = Some [http.StateActive].
Proof.
  intros m0 m. split; [|vm_compute; reflexivity].
  apply (Shutdown_always_returns_nil [by_WithShutdownTimeout (-1)] [] []).
  apply reach_happen.
  apply (reach_run _ Run m0 (Run_listening m0)).
  - apply reach_here.
  - apply pp_Run.
  - vm_compute. reflexivity.
Defined.

Lemma Run_never_returns_once_serving_witness :
  let m := boot (NewServer []) [] [] in
  let p := Call (http_Serve (Alloc 0) 0) Ret in
  let m2 := happen (Tick (20 * time.Second))
              (Shutdown_returned (Run_listening m)) in
  run Run m = Waiting p (Run_listening m) /\ run p m2 = Waiting p m2.
Proof.
  intros m p m2.
  assert (Hrun : run Run m = Waiting p (Run_listening m))
    by (vm_compute; reflexivity).
  split; [exact Hrun|].
  apply (Run_never_returns_once_serving m p (Run_listening m) m2 Hrun).
  apply reach_happen.
  apply (reach_run _ Shutdown (Run_listening m)).
  - apply reach_here.
  - apply pp_Shutdown.
  - vm_compute. reflexivity.
Defined.

Lemma lifecycle_keeps_configuration_witness :
  let m0 := boot (NewServer [WithPort 9000]) [] [] in
  let m := Shutdown_returned (Run_listening m0) in
  this (Run_listening m0) = this m0 /\
  read F_Port (this m) = V_int 9000.
Proof.
  intros m0 m. destruct lifecycle_keeps_configuration as [HRun Hreach].
  split.
  - apply HRun. vm_compute. reflexivity.
  - rewrite (Hreach m0 m F_Port); [reflexivity|].
    apply (reach_run _ Shutdown (Run_listening m0)).
    + apply (reach_run _ Run m0).
      * apply reach_here.
      * apply pp_Run.
      * vm_compute. reflexivity.
    + apply pp_Shutdown.
    + vm_compute. reflexivity.
Defined.

(** ** Contexts, registrations and restarts *)

(** X7.  [Shutdown] releases the context it creates: when it returns, at
    once or after having polled, that context is done, by its deferred
    [cancel] if not by its deadline, and the deadline it was given is the
    shutdown timeout from the time of the call. *)
Theorem Shutdown_releases_its_context :
  (forall m e m',
      run Shutdown m = Done e m' ->
      exists x,
        ctxs m' = ctxs m ++ [x] /\
        context.err x <> no_error /\
        context.deadline x = Some (clock m + ShutdownTimeout (this m))) /\
  (forall i m e m',
      (i < length (ctxs m))%nat ->
      run (Shutdown_polling (Ctx i)) m = Done e m' ->
      ctx_err m' (Ctx i) <> no_error /\
      forall j, j <> i -> ctxs m' !! j = ctxs m !! j).
Proof.
  split.
  - intros m e m'. rewrite run_Shutdown.
    destruct (forallb _ _); [|destruct (decide _) as [Hle|Hgt]];
      [| |discriminate]; intros [= <- <-];
      eexists; (split; [reflexivity|]); (split; [|reflexivity]);
      cbn; destruct (decide _); discriminate.
  - intros i m e m' Hi. destruct (lookup_lt_is_Some_2 _ _ Hi) as [x Hx].
    unfold Shutdown_polling. cbn [run perform]. unfold shutdown_poll.
    cbn [load].
    set (m1 := store field_srv _ m).
    assert (Hdone : forall e0,
      run (Call (cancel (Ctx i)) (fun _ => Ret e0)) m1 = Done e m' ->
      ctx_err m' (Ctx i) <> no_error /\
      forall j, j <> i -> ctxs m' !! j = ctxs m !! j).
    { intros e0. cbn [run perform]. intros [= _ <-]. split.
      - unfold ctx_err. cbn [ctxs set_ctxs].
        rewrite list_lookup_alter_eq.
        change (ctxs m1) with (ctxs m). rewrite Hx. cbn.
        destruct (context.err x); discriminate.
      - intros j Hj. cbn [ctxs set_ctxs].
        rewrite list_lookup_alter_ne by auto. reflexivity. }
    destruct (forallb _ _); [apply Hdone|].
    destruct (ctx_err m1 (Ctx i)); [discriminate|apply Hdone..].
Qed.

Lemma Shutdown_releases_its_context_witness :
  let m := boot (NewServer []) [] [] in
  exists m' x,
    run Shutdown m = Done no_error m' /\
    ctxs m' = [x] /\ context.err x = Canceled /\
    context.deadline x = Some 15000000000.
Proof.
  intros m. destruct Shutdown_releases_its_context as [H _].
  destruct (H m no_error (Shutdown_returned m) eq_refl)
    as (x & Hctxs & Herr & Hdl).
  exists (Shutdown_returned m), x.
  split; [reflexivity|]. split; [exact Hctxs|].
  split; [|exact Hdl].
  vm_compute in Hctxs. injection Hctxs as <-. reflexivity.
Defined.

Lemma Shutdown_keeps_registrations (m m' : Machine) :
  machine_of (run Shutdown m) = Some m' ->
  notify m' = notify m /\ chans m' = chans m /\
  refused m' = refused m /\ keypairs m' = keypairs m.
Proof.
  rewrite run_Shutdown.
  destruct (forallb _ _); [|destruct (decide _)]; cbn [machine_of];
    intros [= <-]; repeat split.
Qed.

(** X8.  [WithSigShutdown] never unregisters: from the moment it waits, and
    still when it has returned, its channel exists and is registered for
    its signal, so that every call leaves one more channel and one more
    registration behind. *)
Theorem WithSigShutdown_never_unregisters
    (m : Machine) (sig : Signal) (hs : list happening) (m' : Machine) :
  machine_of
    (run (WithSigShutdown_waiting (length (chans m)))
       (happen_all hs (WithSigShutdown_registered sig m))) = Some m' ->
  notify m' = (length (chans m), sig) :: notify m /\
  length (chans m') = S (length (chans m)).
Proof.
  set (m1 := WithSigShutdown_registered sig m).
  destruct (happen_all_frame hs m1) as (Hn & _ & Hc).
  assert (Hn1 : notify m1 = (length (chans m), sig) :: notify m)
    by reflexivity.
  assert (Hc1 : length (chans m1) = S (length (chans m))).
  { subst m1. cbn [WithSigShutdown_registered chans set_notify set_chans].
    rewrite length_app. cbn. lia. }
  destruct (run_waiting (length (chans m)) (happen_all hs m1))
    as [E|(m2 & E & _ & _ & Hn2 & _ & _ & Hc2)]; rewrite E.
  - intros [= <-]. rewrite Hn, Hc. auto.
  - intros Hrun. apply Shutdown_keeps_registrations in Hrun
      as (-> & -> & _). rewrite Hn2, Hc2, Hn, Hc. auto.
Qed.

Lemma WithSigShutdown_never_unregisters_witness :
  let m := boot (NewServer []) [] [] in
  exists m',
    run (WithSigShutdown_waiting 0)
      (happen_all [Deliver 15] (WithSigShutdown_registered 15 m)) =
      Done no_error m' /\
    notify m' = [(0%nat, 15)] /\ length (chans m') = 1%nat.
Proof.
  intros m.
  set (o := run (WithSigShutdown_waiting 0)
              (happen_all [Deliver 15] (WithSigShutdown_registered 15 m))).
  assert (Ho : exists m', o = Done no_error m')
    by (vm_compute; eexists; reflexivity).
  destruct Ho as [m' Ho]. exists m'. split; [exact Ho|].
  apply (WithSigShutdown_never_unregisters m 15 [Deliver 15] m').
  change (machine_of o = Some m'). rewrite Ho. reflexivity.
Defined.

(** X9.  [WithContextShutdown] needs no cancellation to fire: once the
    clock has reached the deadline of its context it goes on as [Shutdown]
    does.  Given [context.Background()] it never fires, whatever happens. *)
Theorem WithContextShutdown_deadline_and_Background
    (m : Machine) (i : nat) (x : context.Context) (d dt : Z)
    (hs : list happening) :
  ctxs m !! i = Some x ->
  context.deadline x = Some d ->
  d <= clock m + Z.max 0 dt ->
  run (WithContextShutdown (Ctx i)) (happen (Tick dt) m) =
    run Shutdown (happen (Tick dt) m) /\
  run (WithContextShutdown context_Background) (happen_all hs m) =
    Waiting (WithContextShutdown context_Background) (happen_all hs m).
Proof.
  intros Hx Hd Hle. split; [|apply run_WithContextShutdown].
  rewrite run_WithContextShutdown.
  assert (Herr : ctx_err (happen (Tick dt) m) (Ctx i) <> no_error).
  { unfold ctx_err. cbn [happen ctxs set_ctxs set_clock clock].
    rewrite list_lookup_fmap, Hx. cbn. unfold expire. rewrite Hd.
    destruct (context.err x) eqn:E; cbn; rewrite ?E; try discriminate.
    destruct (decide (d <= clock m + Z.max 0 dt)); [|contradiction].
    cbn. discriminate. }
  destruct (ctx_err _ (Ctx i)); [contradiction|reflexivity..].
Qed.

Lemma WithContextShutdown_deadline_and_Background_witness :
  let m := set_ctxs [ {| context.deadline := Some 500;
                         context.err := no_error |} ]
             (boot (NewServer []) [] []) in
  run (WithContextShutdown (Ctx 0)) m = Waiting (WithContextShutdown (Ctx 0)) m
  /\
  exists m',
    run (WithContextShutdown (Ctx 0)) (happen (Tick 500) m) =
    Done no_error m'.
Proof.
  intros m. split; [reflexivity|].
  destruct (WithContextShutdown_deadline_and_Background m 0
              {| context.deadline := Some 500; context.err := no_error |}
              500 500 [] eq_refl eq_refl) as [Hfire _].
  - vm_compute. discriminate.
  - rewrite Hfire. eexists. vm_compute. reflexivity.
Defined.

(** X10.  [Shutdown] does not disable the [Server]: a [Run] called after it
    does what it would have done before, returning the same error or
    blocking in the accept loop of a server allocated at the same place.
    ([Run] builds a new [http.Server] on every call, and only [s.srv] is
    marked as shut down.) *)
Theorem Shutdown_does_not_disable_Run (m m' : Machine) :
  machine_of (run Shutdown m) = Some m' ->
  result_of (run Run m') = result_of (run Run m) /\
  (forall p m1, run Run m = Waiting p m1 ->
     exists m1', run Run m' = Waiting p m1').
Proof.
  intros Hrun.
  pose proof (Shutdown_keeps_heap _ _ Hrun) as Hheap.
  pose proof (Shutdown_keeps_registrations _ _ Hrun) as (_ & _ & Href & Hkey).
  pose proof (moves_keeps_config _ _ F_Addr (Shutdown_moves _ _ Hrun))
    as [= HAddr].
  pose proof (moves_keeps_config _ _ F_Port (Shutdown_moves _ _ Hrun))
    as [= HPort].
  pose proof (moves_keeps_config _ _ F_CertFile (Shutdown_moves _ _ Hrun))
    as [= HCert].
  pose proof (moves_keeps_config _ _ F_KeyFile (Shutdown_moves _ _ Hrun))
    as [= HKey].
  assert (Htr : Run_transport (this m') = Run_transport (this m)).
  { unfold Run_transport. rewrite HCert, HKey. reflexivity. }
  assert (Hload : loadable (Run_transport (this m')) m' =
                  loadable (Run_transport (this m)) m).
  { rewrite Htr. destruct (Run_transport (this m)); cbn [loadable];
      rewrite ?Hkey; reflexivity. }
  rewrite !run_Run, HAddr, HPort, Href, Hload, Hheap.
  destruct (decide _); [|destruct (loadable _ m)]; cbn [result_of].
  - split; [reflexivity|]. intros p m1 [=].
  - split; [reflexivity|]. intros p m1 [= <- _]. eauto.
  - split; [reflexivity|]. intros p m1 [=].
Qed.

Lemma Shutdown_does_not_disable_Run_witness :
  let m := boot (NewServer []) [] [] in
  exists m1',
    run Run (Shutdown_returned m) =
    Waiting (Call (http_Serve (Alloc 0) 0) Ret) m1'.
Proof.
  intros m.
  destruct (Shutdown_does_not_disable_Run m (Shutdown_returned m) eq_refl)
    as [_ H].
  apply (H _ (Run_listening m)). vm_compute. reflexivity.
Defined.

(** For comparison, the same [http.Server] cannot be served from again once
    it has been shut down. *)
Example http_Server_not_reusable :
  let m := Shutdown_returned (boot (NewServer []) [] []) in
  run (Call (http_ListenAndServe field_srv) Ret) m =
  Done ErrServerClosed
    (record_call (called_ListenAndServe field_srv) m).
Proof. reflexivity. Qed.




(** * The three listings compared *)

Lemma plain_apply_opts (bs : list plain.built) (s : plain.Server) :
  plain_Server (plain.apply_opts (plain.option_of <$> bs) s) =
  apply_opts (option_of <$> (plain_option <$> bs)) (plain_Server s).
Proof.
  revert s. induction bs as [|b bs IH]; intros s; [reflexivity|].
  cbn [fmap list_fmap plain.apply_opts apply_opts]. rewrite IH.
  destruct b; reflexivity.
Qed.

Lemma server_apply_opts (bs : list server.built) (s : server.Server) :
  server_Server (server.apply_opts (server.option_of <$> bs) s) =
  apply_opts (option_of <$> (server_option <$> bs)) (server_Server s).
Proof.
  revert s. induction bs as [|b bs IH]; intros s; [reflexivity|].
  cbn [fmap list_fmap server.apply_opts apply_opts]. rewrite IH.
  destruct b; reflexivity.
Qed.

(** A configuration without TLS paths makes [Run] the [Run] of the first
    listing. *)
Lemma Run_without_TLS (m : Machine) :
  CertFile (this m) = "" ->
  run Run m =
  run (plain.Run
         {| plain.Port := Port (this m); plain.Addr := Addr (this m);
            plain.Handler := Handler (this m);
            plain.WriteTimeout := WriteTimeout (this m);
            plain.ReadTimeout := ReadTimeout (this m);
            plain.ShutdownTimeout := ShutdownTimeout (this m);
            plain.srv := srv (this m) |}) m.
Proof.
  intros Hcert. unfold Run, plain.Run. cbn [run perform].
  destruct (decide _) as [[Hc _]|_]; [contradiction|]. reflexivity.
Qed.

(** X11.  The listing with TLS extends the first listing: for every
    sequence of options of the first listing, [NewServer] returns the same
    configuration in both, with empty certificate and key paths, and [Run]
    on it does in the listing with TLS exactly what it does in the first,
    from any machine. *)
Theorem TLS_listing_extends_plain (bs : list plain.built) (m : Machine) :
  let s := plain.NewServer (plain.option_of <$> bs) in
  NewServer (option_of <$> (plain_option <$> bs)) = plain_Server s /\
  (this m = plain_Server s -> run Run m = run (plain.Run s) m).
Proof.
  intros s. split.
  - unfold NewServer. subst s. unfold plain.NewServer.
    rewrite plain_apply_opts. reflexivity.
  - intros Hthis. rewrite Run_without_TLS by (rewrite Hthis; reflexivity).
    rewrite Hthis. destruct s. reflexivity.
Qed.

Lemma TLS_listing_extends_plain_witness :
  let bs := [plain.by_WithPort 9000; plain.by_WithReadTimeout 5] in
  let m := boot (NewServer (option_of <$> (plain_option <$> bs))) [] [] in
  exists m',
    run Run m = Waiting (Call (http_Serve (Alloc 0) 0) Ret) m' /\
    run (plain.Run (plain.NewServer (plain.option_of <$> bs))) m =
      Waiting (Call (http_Serve (Alloc 0) 0) Ret) m'.
Proof.
  intros bs m. destruct (TLS_listing_extends_plain bs m) as [Hnew Hrun].
  exists (Run_listening m).
  rewrite <- (Hrun Hnew). split; vm_compute; reflexivity.
Defined.

(** X12.  The listing with TLS extends [package server] as well: for every
    sequence of options of [package server], [NewServer] returns the same
    configuration with read and write timeouts of 15 seconds and empty
    certificate and key paths, and [Run] on it does exactly what the [Run]
    of [package server], with its fixed 15-second timeouts, does. *)
Theorem TLS_listing_extends_server (bs : list server.built) (m : Machine) :
  let s := server.NewServer (server.option_of <$> bs) in
  NewServer (option_of <$> (server_option <$> bs)) = server_Server s /\
  (this m = server_Server s -> run Run m = run (server.Run s) m).
Proof.
  intros s. split.
  - unfold NewServer. subst s. unfold server.NewServer.
    rewrite server_apply_opts. reflexivity.
  - intros Hthis. unfold Run, server.Run. cbn [run perform].
    rewrite Hthis.
    destruct (decide _) as [[Hc _]|_]; [contradiction|]. reflexivity.
Qed.

Lemma TLS_listing_extends_server_witness :
  let bs := [server.by_WithAddr "localhost"] in
  let m := boot (NewServer (option_of <$> (server_option <$> bs))) [] [] in
  exists m' v,
    run (server.Run (server.NewServer (server.option_of <$> bs))) m =
      Waiting (Call (http_Serve (Alloc 0) 0) Ret) m' /\
    heap m' !! 0%nat = Some v /\
    http.Addr v = "localhost:8080" /\
    http.ReadTimeout v = 15000000000 /\
    http.WriteTimeout v = 15000000000.
Proof.
  intros bs m. destruct (TLS_listing_extends_server bs m) as [Hnew Hrun].
  exists (Run_listening m).
  eexists. rewrite <- (Hrun Hnew).
  split; [vm_compute; reflexivity|].
  split; [vm_compute; reflexivity|]. repeat split.
Defined.
